(** * telegram-to-md: a shallow embedding of [telegram-to-md.py]

    The script turns a Telegram HTML export into one Markdown file per
    message.  This development embeds its functions ([clean_filename],
    [extract_first_meaningful_line], [convert_tag_to_md],
    [extract_title_and_date] and the loop of [convert_html_to_md]) and
    proves properties of them.

    Python strings are sequences of Unicode code points, so a string is a
    list of code points ([N]); [len] is [length]. *)

From Stdlib Require Import NArith String Ascii DecimalString.
From stdpp Require Import base decidable option list gmap.

#[local] Set Warnings "-clear-no-such-hyp".
#[local] Set Warnings "-register-all".

Abbreviation char := N (only parsing).
Abbreviation str := (list N) (only parsing).

(** ** Characters and literals *)

(** A string literal of the source as a list of code points: the literal
    is read as UTF-8, as the interpreter reads the script. *)
Fixpoint utf8_decode (bs : list N) : str :=
  match bs with
  | [] => []
  | b :: r =>
      (if b <? 128 then b :: utf8_decode r
       else if b <? 224 then
         match r with
         | b2 :: r2 => (b mod 32 * 64 + b2 mod 64) :: utf8_decode r2
         | _ => []
         end
       else if b <? 240 then
         match r with
         | b2 :: b3 :: r3 =>
             (b mod 16 * 4096 + b2 mod 64 * 64 + b3 mod 64) :: utf8_decode r3
         | _ => []
         end
       else
         match r with
         | b2 :: b3 :: b4 :: r4 =>
             (b mod 8 * 262144 + b2 mod 64 * 4096 + b3 mod 64 * 64 + b4 mod 64)
               :: utf8_decode r4
         | _ => []
         end)%N
  end.

Definition lit (s : string) : str :=
  utf8_decode (N_of_ascii <$> list_ascii_of_string s).
Arguments lit s%_string.

Definition LF : char := 10%N.
Definition CR : char := 13%N.
Definition SP : char := 32%N.
Definition DQUOTE : char := 34%N.

(** Membership of a character in a character class given by its members. *)
Definition in_class (cls : str) (c : char) : bool := existsb (N.eqb c) cls.

(** Python's [str.isspace] on one character, which is also what [\s] of
    [re] matches on [str] patterns and what [str.strip()] and
    [str.split()] remove: U+0009..U+000D, U+001C..U+0020, U+0085, U+00A0,
    U+1680, U+2000..U+200A, U+2028, U+2029, U+202F, U+205F, U+3000. *)
Definition isspace (c : char) : bool :=
  ((9 <=? c) && (c <=? 13) || (28 <=? c) && (c <=? 32)
   || in_class [133; 160; 5760] c
   || (8192 <=? c) && (c <=? 8202)
   || in_class [8232; 8233; 8239; 8287; 12288] c)%N.

(** The line boundaries of [str.splitlines]: LF, VT, FF, CR, FS, GS, RS,
    NEL, LINE SEPARATOR, PARAGRAPH SEPARATOR. *)
Definition is_linebreak (c : char) : bool :=
  in_class [10; 11; 12; 13; 28; 29; 30; 133; 8232; 8233]%N c.

(** ** String primitives of Python used by the script *)

(** Removal of the maximal trailing run of characters satisfying [p]. *)
Fixpoint rstrip_class (p : char → bool) (s : str) : str :=
  match s with
  | [] => []
  | c :: r =>
      match rstrip_class p r with
      | [] => if p c then [] else [c]
      | r' => c :: r'
      end
  end.

(** Removal of the maximal leading run of characters satisfying [p]. *)
Fixpoint lstrip_class (p : char → bool) (s : str) : str :=
  match s with
  | [] => []
  | c :: r => if p c then lstrip_class p r else s
  end.

(** [s.strip()] *)
Definition strip (s : str) : str := rstrip_class isspace (lstrip_class isspace s).

(** [s.split()]: the maximal runs of non-whitespace characters.  [cur] is
    the token being read. *)
Fixpoint split_go (cur : str) (s : str) : list str :=
  match s with
  | [] => if cur is [] then [] else [cur]
  | c :: r =>
      if isspace c
      then (if cur is [] then split_go [] r else cur :: split_go [] r)
      else split_go (cur ++ [c]) r
  end.

Definition str_split (s : str) : list str := split_go [] s.

(** [s.splitlines()]: [cur] is the line being read; [after_cr] says that
    the previous character was a CR, whose following LF belongs to the same
    line boundary. *)
Fixpoint splitlines_go (after_cr : bool) (cur : str) (s : str) : list str :=
  match s with
  | [] => if cur is [] then [] else [cur]
  | c :: r =>
      if after_cr && (c =? LF)%N then splitlines_go false cur r
      else if is_linebreak c then cur :: splitlines_go (c =? CR)%N [] r
      else splitlines_go false (cur ++ [c]) r
  end.

Definition splitlines (s : str) : list str := splitlines_go false [] s.

(** The part of [s] before the last occurrence of [sep], if [sep] occurs. *)
Fixpoint before_last (sep : char) (s : str) : option str :=
  match s with
  | [] => None
  | c :: r =>
      match before_last sep r with
      | Some p => Some (c :: p)
      | None => if (c =? sep)%N then Some [] else None
      end
  end.

(** [s.rsplit(sep, 1)[0]] for a one-character separator: the part before
    the last [sep], or all of [s] when [sep] does not occur. *)
Definition rsplit1_head (sep : char) (s : str) : str :=
  default s (before_last sep s).

(** [sub in s] for strings: [sub] occurs in [s] as a contiguous part. *)
Fixpoint is_prefix (p s : str) : bool :=
  match p, s with
  | [], _ => true
  | _ :: _, [] => false
  | a :: p', b :: s' => (a =? b)%N && is_prefix p' s'
  end.

Fixpoint contains (sub s : str) : bool :=
  is_prefix sub s || (if s is _ :: r then contains sub r else false).

(** ** Library functions outside the script

    The script calls [emoji.replace_emoji(text, '')], [str.lower()] and,
    through [datetime.strptime], the decimal value of a Unicode digit; and
    it writes its files through [open] and [write].  The tables of the
    first three and the state of the file system are not part of the
    repository; the embedding takes them as an interface. *)
Class Externals := {
  (** [emoji.replace_emoji(text, '')] *)
  replace_emoji : str → str;
  (** [str.lower()] *)
  lower : str → str;
  (** the decimal value of a character of category Nd ([\d] of [re],
      read by [int]) *)
  decimal_value : char → option N;
  (** lines 230 to 232, [open(output_path, 'w')] and [f.write(...)]:
      whether the file system, after the files written so far in the run,
      takes a file of this name and this content.  When it does not,
      [open] or [write] raises [OSError]. *)
  accepts_write : list (str * str) → str → str → bool
}.

(** An instance on which examples are evaluated: emoji are the code points
    of the pictographic blocks (U+2600..U+27BF, U+1F000..U+1FAFF) and the
    variation selector U+FE0F; lower-casing covers Latin A..Z and Cyrillic
    U+0400..U+042F; the decimal digits are '0'..'9'; a file is taken when
    its name is at most 255 bytes of UTF-8, the limit of the common Linux
    file systems. *)
Definition block_emoji (c : char) : bool :=
  ((9728 <=? c) && (c <=? 10175) || (126976 <=? c) && (c <=? 129791)
   || (c =? 65039))%N.

Definition lower_char (c : char) : char :=
  (if (65 <=? c) && (c <=? 90) then c + 32
   else if (1024 <=? c) && (c <=? 1039) then c + 80
   else if (1040 <=? c) && (c <=? 1071) then c + 32
   else c)%N.

Definition ascii_digit (c : char) : option N :=
  (if (48 <=? c) && (c <=? 57) then Some (c - 48) else None)%N.

Definition utf8_size (c : char) : N :=
  (if c <? 128 then 1 else if c <? 2048 then 2 else if c <? 65536 then 3 else 4)%N.

Definition utf8_length (s : str) : N := foldr (λ c n, utf8_size c + n)%N 0%N s.

Definition sample_externals : Externals := {|
  replace_emoji := filter (λ c, block_emoji c = false);
  lower := fmap lower_char;
  decimal_value := ascii_digit;
  accepts_write := λ _ filename _, (utf8_length filename <=? 255)%N
|}.

(** ** [clean_filename] *)

(** The class of line 13: the characters < > : / \ | ? * and the double
    quote, line feed and carriage return. *)
Definition special_chars : str :=
  lit "<>:" ++ [DQUOTE] ++ lit "/\|?*" ++ [LF; CR].

Definition is_special (c : char) : bool := in_class special_chars c.

(** The class [[.,!?;:]] of line 16. *)
Definition punct_chars : str := lit ".,!?;:".

Definition is_punct (c : char) : bool := in_class punct_chars c.

(** Line 13, [re.sub] of that class by a space. *)
Definition sub_special (text : str) : str :=
  (λ c, if is_special c then SP else c) <$> text.

(** [re.sub(r'[.,!?;:]+$', '', s)].  Without [re.MULTILINE], [$] matches at
    the end of the string and also just before a newline that ends the
    string, so a match ends at one of these two places. *)
Definition sub_trailing_punct (s : str) : str :=
  match last s with
  | Some c =>
      if (c =? LF)%N then rstrip_class is_punct (removelast s) ++ [LF]
      else rstrip_class is_punct s
  | None => []
  end.

(** [re.sub(r'\s+', ' ', s)]: every maximal run of whitespace becomes one
    space; [in_run] says that the previous character was whitespace. *)
Fixpoint sub_space_runs (in_run : bool) (s : str) : str :=
  match s with
  | [] => []
  | c :: r =>
      if isspace c
      then (if in_run then sub_space_runs true r else SP :: sub_space_runs true r)
      else c :: sub_space_runs false r
  end.

(** [re.sub(r'\n{3,}', '\n\n', s)] of line 185: a run of three or more
    newlines becomes two, shorter runs are copied.  [run] counts the
    newlines read since the last other character. *)
Definition flush_newlines (run : nat) : str :=
  if 3 <=? run then [LF; LF] else replicate run LF.

Fixpoint sub_newline_runs (run : nat) (s : str) : str :=
  match s with
  | [] => flush_newlines run
  | c :: r =>
      if (c =? LF)%N then sub_newline_runs (S run) r
      else flush_newlines run ++ c :: sub_newline_runs 0 r
  end.

Definition collapse_newlines (s : str) : str := sub_newline_runs 0 s.

(** ** The parsed document

    A node of the tree BeautifulSoup builds is a string or a tag with a
    name, its attributes and its children in document order.  A string is
    an object of class [NavigableString] itself, the text of the page, or
    of one of its subclasses: a comment, a CDATA section, a declaration, a
    doctype, a processing instruction, or the string inside a [style],
    [script], [template], [rt] or [rp] element. *)

Inductive string_class :=
  | CData | Comment | Declaration | Doctype | ProcessingInstruction
  | Stylesheet | Script | TemplateString | RubyTextString | RubyParenthesisString.

#[global] Instance string_class_eq_dec : EqDecision string_class.
Proof. solve_decision. Defined.

Inductive node :=
  | NavigableString (s : str)
  | SubclassString (cls : string_class) (s : str)
  | Tag (name : str) (attrs : gmap (list N) (list N)) (children : list node).

Definition children (n : node) : list node :=
  match n with
  | NavigableString _ | SubclassString _ _ => []
  | Tag _ _ ch => ch
  end.

(** [tag.get(key, '')] *)
Definition get_attr (n : node) (key : str) : str :=
  match n with
  | NavigableString _ | SubclassString _ _ => []
  | Tag _ attrs _ => default [] (attrs !! key)
  end.

(** [builder.string_containers] of the HTML tree builder: the elements
    whose strings get a class of their own. *)
Definition string_containers : list (string * string_class) :=
  [ ("rt", RubyTextString); ("rp", RubyParenthesisString);
    ("style", Stylesheet); ("script", Script);
    ("template", TemplateString) ]%string.

(** [tag.interesting_string_types]: the classes of string [get_text]
    returns for a tag of this name; [None] stands for [NavigableString]
    itself.  A string container keeps the strings of its own class, any
    other element the text and the CDATA sections. *)
Definition interesting_string_types (name : str) (cls : option string_class) : bool :=
  match List.find (λ entry, bool_decide (name = lit entry.1)) string_containers with
  | Some (_, own) => bool_decide (cls = Some own)
  | None => bool_decide (cls = None) || bool_decide (cls = Some CData)
  end.

(** The strings in or below a node whose class [keep] takes, concatenated
    in document order. *)
Fixpoint strings_of (keep : option string_class → bool) (n : node) : str :=
  match n with
  | NavigableString s => if keep None then s else []
  | SubclassString cls s => if keep (Some cls) then s else []
  | Tag _ _ ch => concat (map (strings_of keep) ch)
  end.

(** [tag.get_text()]: the strings below the tag that are of a class
    interesting for the tag, concatenated in document order.  A comment
    is of no interesting class: [get_text] leaves it out.  (On a string,
    [get_text] gives the string if it is text or CDATA.) *)
Definition get_text (n : node) : str :=
  match n with
  | NavigableString s => s
  | SubclassString cls s => if bool_decide (cls = CData) then s else []
  | Tag name _ _ => strings_of (interesting_string_types name) n
  end.

(** [str(i)] for the numbering of ordered lists. *)
Definition decimal (n : nat) : str :=
  lit (NilEmpty.string_of_uint (Nat.to_uint n)).

Section Script.
Context {ext : Externals}.

Definition clean_filename (text : str) : str :=
  let text := replace_emoji text in
  let clean := sub_special text in
  let clean := sub_trailing_punct clean in
  let clean := strip (sub_space_runs false clean) in
  if 100 <? length clean
  then rsplit1_head SP (take 100 clean)
  else clean.

(** The value of [clean] after line 19, before the length limit. *)
Definition normalized_form (text : str) : str :=
  strip (sub_space_runs false (sub_trailing_punct (sub_special (replace_emoji text)))).

End Script.

(** Every whitespace character of [s] is a space that does not follow
    another whitespace character; [prev] says that the character before [s]
    is whitespace. *)
Fixpoint spaced (prev : bool) (s : str) : bool :=
  match s with
  | [] => true
  | c :: r =>
      if isspace c then (c =? SP)%N && negb prev && spaced true r
      else spaced false r
  end.

(** The shape of a normalized filename stem: no character of
    [special_chars], single spaces as the only whitespace, and none at
    either end. *)
Definition tidy (s : str) : Prop :=
  Forall (λ c, is_special c = false) s
  ∧ spaced false s = true
  ∧ (∀ c, head s = Some c → isspace c = false)
  ∧ (∀ c, last s = Some c → isspace c = false).

(** The last character of [s] is one of [punct_chars]. *)
Definition ends_with_punct (s : str) : bool :=
  match last s with
  | Some c => is_punct c
  | None => false
  end.

(** [s.endswith(c)] and [s.startswith(c)] for one character. *)
Definition ends_with (c : char) (s : str) : bool :=
  match last s with
  | Some x => (x =? c)%N
  | None => false
  end.

Definition starts_with (c : char) (s : str) : bool :=
  match head s with
  | Some x => (x =? c)%N
  | None => false
  end.

(** [stem], a prefix of [full], ends inside a word: its last character and
    the character that follows it in [full] are both not spaces. *)
Definition cut_mid_word (full stem : str) : Prop :=
  ∃ a b rest, full = stem ++ b :: rest ∧ last stem = Some a ∧ a ≠ SP ∧ b ≠ SP.

(** ** [convert_tag_to_md] *)

Definition name_in (names : list string) (name : str) : bool :=
  existsb (λ n, bool_decide (name = lit n)) names.

(** The text one child contributes to [parts], given the conversion
    [inner] of the child itself ([convert_tag_to_md(child)]) and, for a
    list, the conversions [items] of its direct [li] children. *)
Definition tag_part (name : str) (child : node) (inner : str) (items : list str) : str :=
  if name_in ["strong"; "b"]%string name then
    let content := strip inner in
    if content is [] then [] else lit "**" ++ content ++ lit "**"
  else if name_in ["em"; "i"]%string name then
    let content := strip inner in
    if content is [] then [] else lit "*" ++ content ++ lit "*"
  else if name_in ["code"]%string name then
    lit "`" ++ inner ++ lit "`"
  else if name_in ["pre"]%string name then
    lit "```" ++ [LF] ++ strip inner ++ [LF] ++ lit "```"
  else if name_in ["a"]%string name then
    let text := strip (get_text child) in
    let href := get_attr child (lit "href") in
    if text is [] then href
    else if href is [] then []
    else lit "[" ++ text ++ lit "](" ++ href ++ lit ")"
  else if name_in ["br"]%string name then
    [LF]
  else if name_in ["ul"]%string name then
    concat ((λ item, lit "* " ++ strip item ++ [LF]) <$> items)
  else if name_in ["ol"]%string name then
    concat (imap (λ i item, decimal (S i) ++ lit ". " ++ strip item ++ [LF]) items)
  else if name_in ["li"]%string name then
    inner
  else if name_in ["div"]%string name then
    if inner is [] then [] else inner ++ [LF]
  else
    inner.

(** One iteration of the loop over [tag.children].  The test of line 72,
    [isinstance(child, NavigableString)], holds of a string of any class,
    a comment included: its characters are appended as they are. *)
Fixpoint child_part (child : node) : str :=
  match child with
  | NavigableString s | SubclassString _ s => s
  | Tag name _ ch =>
      tag_part name child
        (concat (map child_part ch))
        (omap (λ item,
           match item with
           | Tag n _ sub =>
               if name_in ["li"]%string n then Some (concat (map child_part sub)) else None
           | NavigableString _ | SubclassString _ _ => None
           end) ch)
  end.

(** [convert_tag_to_md(tag)]; [None] is Python's [None]. *)
Definition convert_tag_to_md (tag : option node) : str :=
  match tag with
  | None => []
  | Some t => concat (map child_part (children t))
  end.

(** The names [convert_tag_to_md] has a branch for; any other name takes
    the final [else]. *)
Definition known_names : list string :=
  ["strong"; "b"; "em"; "i"; "code"; "pre"; "a"; "br"; "ul"; "ol"; "li"; "div"]%string.

(** There is a text node, a string of any class, in or below [n]. *)
Fixpoint has_text (n : node) : bool :=
  match n with
  | NavigableString _ | SubclassString _ _ => true
  | Tag _ _ ch => existsb has_text ch
  end.

(** [child.find_all('li', recursive=False)] *)
Definition is_li (item : node) : bool :=
  if item is Tag n _ _ then name_in ["li"]%string n else false.

Definition find_li (child : node) : list node :=
  List.filter is_li (children child).

(** ** Exceptions

    A call that can raise returns [Raise e]; the built-in exceptions below
    are the ones the string, list, date and file functions used by the
    script raise in Python. *)
Inductive exn := ValueError | IndexError | KeyError | TypeError | OSError.

Inductive res (A : Type) :=
  | Ok (a : A)
  | Raise (e : exn).
Arguments Ok {A} a.
Arguments Raise {A} e.

#[global] Instance res_ret : MRet res := @Ok.
#[global] Instance res_bind : MBind res := λ A B f m,
  match m with
  | Ok a => f a
  | Raise e => Raise e
  end.

(** [l[0]] *)
Definition index0 {A} (l : list A) : res A :=
  match l with
  | [] => Raise IndexError
  | x :: _ => Ok x
  end.

(** ** Dates: [datetime.strptime(s, '%d.%m.%Y')] and [strftime('%Y-%m-%d')] *)

Record date := { year : N; month : N; day : N }.

(** A digit of an ASCII range [[lo-hi]] of the format's regular expression,
    with its value. *)
Definition ascii_range (lo hi : N) (c : char) : option N :=
  (if (48 + lo <=? c) && (c <=? 48 + hi) then Some (c - 48) else None)%N.

(** The alternatives of a directive read a number at the head of the input
    and return it with the rest. *)
Definition one_digit (p : char → option N) (s : str) : option (N * str) :=
  match s with
  | c :: r => v ← p c; Some (v, r)
  | [] => None
  end.

Definition two_digits (p1 p2 : char → option N) (s : str) : option (N * str) :=
  match s with
  | c1 :: c2 :: r => v1 ← p1 c1; v2 ← p2 c2; Some (10 * v1 + v2, r)%N
  | _ => None
  end.

Definition blank_digit (p : char → option N) (s : str) : option (N * str) :=
  match s with
  | c :: r => if (c =? SP)%N then one_digit p r else None
  | [] => None
  end.

(** The alternatives of a group are tried in order; one that matches but
    after which the rest of the expression [k] fails is given up for the
    next. *)
Fixpoint first_match {A B} (alts : list (str → option (A * str)))
    (k : A → str → option B) (s : str) : option B :=
  match alts with
  | [] => None
  | alt :: rest =>
      match alt s ≫= (λ '(a, r), k a r) with
      | Some b => Some b
      | None => first_match rest k s
      end
  end.

Definition literal (c : char) (s : str) : option str :=
  match s with
  | c' :: r => if (c' =? c)%N then Some r else None
  | [] => None
  end.

Definition is_leap (y : N) : bool :=
  ((y mod 4 =? 0) && (negb (y mod 100 =? 0) || (y mod 400 =? 0)))%N.

Definition days_in_month (y m : N) : N :=
  (if m =? 2 then (if is_leap y then 29 else 28)
   else if in_class [4; 6; 9; 11] m then 30
   else 31)%N.

(** The checks of the [date] constructor: MINYEAR = 1, MAXYEAR = 9999. *)
Definition valid_date (d : date) : bool :=
  ((1 <=? year d) && (year d <=? 9999) && (1 <=? month d) && (month d <=? 12)
   && (1 <=? day d) && (day d <=? days_in_month (year d) (month d)))%N.

Definition pad2 (n : N) : str := [48 + n / 10 mod 10; 48 + n mod 10]%N.
Definition pad4 (n : N) : str :=
  [48 + n / 1000 mod 10; 48 + n / 100 mod 10; 48 + n / 10 mod 10; 48 + n mod 10]%N.

(** [str(n)] for a number. *)
Definition decimal_N (n : N) : str :=
  lit (NilEmpty.string_of_uint (N.to_uint n)).

(** [date_obj.strftime('%Y-%m-%d')]: month and day are written with two
    digits; the year is written by the C library, which on Linux does not
    pad it, so a year below 1000 has fewer than four digits (999-01-01). *)
Definition strftime (d : date) : str :=
  decimal_N (year d) ++ lit "-" ++ pad2 (month d) ++ lit "-" ++ pad2 (day d).



(** [sep.join(l)] *)
Fixpoint join (sep : str) (l : list str) : str :=
  match l with
  | [] => []
  | [x] => x
  | x :: r => x ++ sep ++ join sep r
  end.

(** A message element, as the three selections the script makes on it:
    [message.select_one('.text')], [message.select_one('.from_name')] and
    [message.select_one('.date')]. *)
Record message := {
  text_div : option node;
  author_div : option node;
  date_div : option node
}.

(** Elements for examples: a [div] holding one text node, and a [div] with
    a [title] attribute. *)
Definition text_element (s : string) : option node :=
  Some (Tag (lit "div") ∅ [NavigableString (lit s)]).

Definition date_element (title : string) : option node :=
  Some (Tag (lit "div") {[ lit "title" := lit title ]} []).

(** Three messages, the second with the first line of the first: two
    files, in the order of the messages. *)
Definition three_messages : list message :=
  [ {| text_div := text_element "Release notes for May";
       author_div := text_element "Alice"; date_div := date_element "02.05.2021 09:00:00" |};
    {| text_div := text_element "Release notes for May";
       author_div := None; date_div := None |};
    {| text_div := text_element "Minutes"; author_div := None; date_div := None |} ].

(** [extract_first_meaningful_line] *)
Definition extract_first_meaningful_line (text : str) : option str :=
  let lines := List.filter (λ line, negb (bool_decide (line = [])))
                 (strip <$> splitlines text) in
  match List.find (λ line, 10 <=? length line) lines with
  | Some line => Some line
  | None => head lines
  end.

Section Pipeline.
Context {ext : Externals}.

(** [datetime.strptime(s, '%d.%m.%Y')]: the expression built for the format
    is [(3[0-1]|[1-2]\d|0[1-9]|[1-9]| [1-9])\.(1[0-2]|0[1-9]|[1-9])\.(\d\d\d\d)],
    matched at the start of [s]; text left after the match, or a day, month
    or year the [date] constructor refuses, is a [ValueError]. *)
Definition re_d : list (str → option (N * str)) :=
  [ two_digits (ascii_range 3 3) (ascii_range 0 1);
    two_digits (ascii_range 1 2) decimal_value;
    two_digits (ascii_range 0 0) (ascii_range 1 9);
    one_digit (ascii_range 1 9);
    blank_digit (ascii_range 1 9) ].

Definition re_m : list (str → option (N * str)) :=
  [ two_digits (ascii_range 1 1) (ascii_range 0 2);
    two_digits (ascii_range 0 0) (ascii_range 1 9);
    one_digit (ascii_range 1 9) ].

Definition re_Y (s : str) : option (N * str) :=
  match s with
  | c1 :: c2 :: c3 :: c4 :: r =>
      v1 ← decimal_value c1; v2 ← decimal_value c2;
      v3 ← decimal_value c3; v4 ← decimal_value c4;
      Some (1000 * v1 + 100 * v2 + 10 * v3 + v4, r)%N
  | _ => None
  end.

Definition format_match (s : str) : option (date * str) :=
  first_match re_d (λ d s1,
    s2 ← literal 46 s1;
    first_match re_m (λ m s3,
      s4 ← literal 46 s3;
      '(y, rest) ← re_Y s4;
      Some ({| year := y; month := m; day := d |}, rest)) s2) s.

Definition strptime (s : str) : res date :=
  match format_match s with
  | None => Raise ValueError
  | Some (d, rest) =>
      if rest is [] then (if valid_date d then Ok d else Raise ValueError)
      else Raise ValueError
  end.

(** [get_tags_from_content]; the set of tags is returned sorted, which is
    the order design, management, product. *)
Definition any_term (terms : list string) (search_text : str) : bool :=
  existsb (λ term, contains (lit term) search_text) terms.

Definition get_tags_from_content (text author : str) : list str :=
  let search_text := lower (text ++ lit " " ++ author) in
  (if any_term ["design"; "дизайн"; "ux"; "ui"]%string search_text
   then [lit "design"] else [])
  ++ (if any_term ["team"; "тимлид"; "команд"]%string search_text
      then [lit "management"] else [])
  ++ (if any_term ["product"; "продакт"; "продукт"]%string search_text
      then [lit "product"] else []).

(** The body of the [try] of lines 140-141. *)
Definition try_date (date_title : str) : res str :=
  token ← index0 (str_split date_title);
  date_obj ← strptime token;
  Ok (strftime date_obj).

(** Lines 136-143: [date_str], with the handler of
    [except (ValueError, IndexError)]. *)
Definition extract_date (date_div : option node) : res (option str) :=
  match date_div with
  | None => Ok None
  | Some d =>
      match try_date (get_attr d (lit "title")) with
      | Ok date_str => Ok (Some date_str)
      | Raise ValueError | Raise IndexError => Ok None
      | Raise e => Raise e
      end
  end.

Definition extract_title_and_date (m : message)
    : res (option str * option str) :=
  match text_div m with
  | None => Ok (None, None)
  | Some td =>
      let text := convert_tag_to_md (Some td) in
      match extract_first_meaningful_line text with
      | None | Some [] => Ok (None, None)
      | Some first_line =>
          date_str ← extract_date (date_div m);
          Ok (Some (clean_filename first_line), date_str)
      end
  end.

(** ** The loop of [convert_html_to_md]

    The state carried from one message to the next; [written] lists the
    files written so far, oldest first, as (filename, content). *)
Record state := {
  last_author : str;
  used_filenames : gset (list N);
  written : list (list N * list N);
  converted_count : nat
}.

Definition initial : state := {|
  last_author := lit "Unknown Author";
  used_filenames := ∅;
  written := [];
  converted_count := 0
|}.

(** Line 181. *)
Definition resolve_author (m : message) (st : state) : str :=
  match author_div m with
  | Some a => strip (get_text a)
  | None => last_author st
  end.

(** Lines 217-227. *)
Definition final_content (date_str : option str) (author : str)
    (tags : list str) (md_content : str) : str :=
  join [LF]
    ([lit "---"]
     ++ (match date_str with
         | Some ((_ :: _) as d) => [lit "date: " ++ d]
         | _ => []
         end)
     ++ [lit "author: " ++ [DQUOTE] ++ author ++ [DQUOTE]]
     ++ (if tags is [] then []
         else lit "tags:" :: ((λ tag, lit "  - " ++ tag) <$> tags))
     ++ [lit "---" ++ [LF]; md_content]).

(** The body of the loop, lines 173-234.  The write of lines 230-232 is
    not guarded: when the file system refuses the file, [OSError] leaves
    the loop and the function. *)
Definition step (st : state) (m : message) : res state :=
  match text_div m with
  | None => Ok st
  | Some td =>
      if strip (get_text td) is [] then Ok st
      else
        let author := resolve_author m st in
        let md_content := collapse_newlines (convert_tag_to_md (Some td)) in
        let tags := get_tags_from_content md_content author in
        '(title, date_str) ← extract_title_and_date m;
        match title with
        | None | Some [] => Ok st
        | Some title =>
            let filename := title ++ lit ".md" in
            if decide (filename ∈ used_filenames st) then Ok st
            else
              let final_content := final_content date_str author tags md_content in
              if accepts_write (written st) filename final_content
              then Ok {| last_author := last_author st;
                         used_filenames := used_filenames st ∪ {[filename]};
                         written := written st ++ [(filename, final_content)];
                         converted_count := S (converted_count st) |}
              else Raise OSError
        end
  end.

(** The loop over [messages], from state [st]: the state after the last
    message, or the exception that ended the run. *)
Fixpoint run_from (st : state) (messages : list message) : res state :=
  match messages with
  | [] => Ok st
  | m :: rest => st' ← step st m; run_from st' rest
  end.

Definition run (messages : list message) : res state := run_from initial messages.

(** The filename line 196 forms for [m], when the loop body gets that far:
    [None] for a message skipped at line 176 or line 193. *)
Definition filename_of (m : message) : option str :=
  match text_div m with
  | None => None
  | Some td =>
      if strip (get_text td) is [] then None
      else
        match extract_title_and_date m with
        | Ok (Some ((_ :: _) as title), _) => Some (title ++ lit ".md")
        | _ => None
        end
  end.

End Pipeline.

(** The registry holds the names of the files written, each written once,
    and the counter counts them. *)
Definition consistent (st : state) : Prop :=
  used_filenames st = list_to_set (written st).*1
  ∧ NoDup (written st).*1
  ∧ converted_count st = length (written st).

(** ** Notions used to state further properties *)

(** The lines [extract_first_meaningful_line] chooses from: the lines of
    [text], trimmed, without the empty ones (line 51). *)
Definition nonblank_lines (text : str) : list str :=
  List.filter (λ line, negb (bool_decide (line = []))) (strip <$> splitlines text).

(** After [run] newlines, [s] never reaches a third newline in a row. *)
Fixpoint newline_runs_below_3 (run : nat) (s : str) : bool :=
  match s with
  | [] => true
  | c :: r =>
      if (c =? LF)%N then (S run <? 3) && newline_runs_below_3 (S run) r
      else newline_runs_below_3 0 r
  end.

(** No tag in or below [n] has a name [convert_tag_to_md] has a branch
    for. *)
Fixpoint plain (n : node) : bool :=
  match n with
  | NavigableString _ | SubclassString _ _ => true
  | Tag name _ ch => negb (name_in known_names name) && forallb plain ch
  end.

(** Every string in or below [n], whatever its class, in document order. *)
Definition all_strings (n : node) : str := strings_of (λ _, true) n.

(** Every string in or below [n] is text: an object of [NavigableString]
    itself, no comment or other string of a subclass. *)
Fixpoint text_only (n : node) : bool :=
  match n with
  | NavigableString _ => true
  | SubclassString _ _ => false
  | Tag _ _ ch => forallb text_only ch
  end.

(** The body of [m] passes the test of line 175. *)
Definition has_body (m : message) : bool :=
  match text_div m with
  | Some td => negb (bool_decide (strip (get_text td) = []))
  | None => false
  end.

(** The state after the file [f] is written with [content]: lines 214
    and 230 to 234. *)
Definition with_file (st : state) (f content : str) : state := {|
  last_author := last_author st;
  used_filenames := used_filenames st ∪ {[f]};
  written := written st ++ [(f, content)];
  converted_count := S (converted_count st)
|}.

(** The ways to write [n] in one or two digits: with two digits, and with
    one when [n] is below ten. *)
Definition numerals (n : N) : list str :=
  pad2 n :: (if (n <? 10)%N then [[48 + n]%N] else []).

Section Documents.
Context {ext : Externals}.

(** The number a string of decimal digits stands for, as [int] reads the
    text of a group of the expression. *)
Fixpoint digits_value (acc : N) (s : str) : option N :=
  match s with
  | [] => Some acc
  | c :: r => v ← decimal_value c; digits_value (10 * acc + v) r
  end.

Definition decimal_reading (s : str) : option N :=
  if s is [] then None else digits_value 0 s.

(** The file the loop body prepares for [m] when [last_author] is
    [author0] (lines 174-227, without the test of line 210): its filename
    and content, or [None] for a message skipped at line 176 or 193. *)
Definition document_of (author0 : str) (m : message) : option (list N * list N) :=
  match text_div m with
  | None => None
  | Some td =>
      if strip (get_text td) is [] then None
      else
        let author :=
          match author_div m with
          | Some a => strip (get_text a)
          | None => author0
          end in
        let md_content := collapse_newlines (convert_tag_to_md (Some td)) in
        let tags := get_tags_from_content md_content author in
        match extract_title_and_date m with
        | Ok (Some ((_ :: _) as title), date_str) =>
            Some (title ++ lit ".md", final_content date_str author tags md_content)
        | _ => None
        end
  end.

End Documents.

(** * Properties *)

(** ** Character classes *)

Lemma in_class_spec cls c : in_class cls c = true ↔ c ∈ cls.
Proof.
  unfold in_class. rewrite existsb_exists. split.
  - intros (x & Hx & Heq). apply N.eqb_eq in Heq. subst.
    by apply list_elem_of_In.
  - intros Hx. exists c. split; [by apply list_elem_of_In | apply N.eqb_refl].
Qed.

Lemma in_class_false cls c : in_class cls c = false ↔ c ∉ cls.
Proof.
  rewrite <- in_class_spec. destruct (in_class cls c); naive_solver.
Qed.

Lemma isspace_SP : isspace SP = true.
Proof. reflexivity. Qed.

Lemma is_special_SP : is_special SP = false.
Proof. reflexivity. Qed.

Lemma is_special_LF : is_special LF = true.
Proof. reflexivity. Qed.

(** ** Stripping *)

Lemma rstrip_class_spec p s :
  ∃ k, s = rstrip_class p s ++ k
       ∧ Forall (λ c, p c = true) k
       ∧ ∀ c, last (rstrip_class p s) = Some c → p c = false.
Proof.
  induction s as [|c r (k & Hr & Hk & Hlast)]; simpl.
  - exists []. by repeat split.
  - destruct (rstrip_class p r) as [|x r'] eqn:E.
    + simpl in Hr. subst k. destruct (p c) eqn:Hc.
      * exists (c :: r). repeat split; [by constructor | done].
      * exists r. repeat split; [done|]. simpl. by intros ? [= <-].
    + exists k. split; [by rewrite Hr at 1|]. split; [done|].
      intros c'. change (last (c :: x :: r')) with (last (x :: r')).
      apply Hlast.
Qed.

Lemma rstrip_class_id p s :
  (∀ c, last s = Some c → p c = false) → rstrip_class p s = s.
Proof.
  induction s as [|c r IH]; [done|]. intros Hlast. simpl.
  destruct r as [|x r'].
  - simpl. by rewrite (Hlast c).
  - rewrite IH; [done|]. intros c' Hc'. by apply Hlast.
Qed.

Lemma lstrip_class_spec p s :
  ∃ k, s = k ++ lstrip_class p s
       ∧ Forall (λ c, p c = true) k
       ∧ ∀ c, head (lstrip_class p s) = Some c → p c = false.
Proof.
  induction s as [|c r (k & Hr & Hk & Hhead)]; simpl.
  - exists []. by repeat split.
  - destruct (p c) eqn:Hc.
    + exists (c :: k). split; [by rewrite Hr at 1|]. split; [by constructor | done].
    + exists []. repeat split; [done|]. simpl. by intros ? [= <-].
Qed.

Lemma lstrip_class_id p s :
  (∀ c, head s = Some c → p c = false) → lstrip_class p s = s.
Proof.
  destruct s as [|c r]; [done|]. intros Hhead. simpl. by rewrite (Hhead c).
Qed.

Lemma strip_id s :
  (∀ c, head s = Some c → isspace c = false) →
  (∀ c, last s = Some c → isspace c = false) →
  strip s = s.
Proof.
  intros Hh Hl. unfold strip. rewrite lstrip_class_id; [|done].
  by apply rstrip_class_id.
Qed.

(** [strip] keeps a middle part of the string and trims whitespace only. *)
Lemma strip_spec s :
  ∃ k1 k2, s = k1 ++ strip s ++ k2
    ∧ Forall (λ c, isspace c = true) k1
    ∧ Forall (λ c, isspace c = true) k2
    ∧ (∀ c, head (strip s) = Some c → isspace c = false)
    ∧ (∀ c, last (strip s) = Some c → isspace c = false).
Proof.
  unfold strip.
  destruct (lstrip_class_spec isspace s) as (k1 & H1 & Hk1 & Hhead).
  destruct (rstrip_class_spec isspace (lstrip_class isspace s))
    as (k2 & H2 & Hk2 & Hlast).
  exists k1, k2. split; [by rewrite <- H2|]. repeat split; [done..| |done].
  intros c Hc. apply Hhead. rewrite H2.
  destruct (rstrip_class isspace (lstrip_class isspace s)); [done|].
  by simpl in *.
Qed.

(** ** Whitespace runs *)

Lemma spaced_weaken b s : spaced b s = true → spaced false s = true.
Proof.
  destruct s as [|c r]; [done|]. simpl.
  destruct (isspace c); [|done]. destruct b; [|done].
  by rewrite andb_false_r.
Qed.

Lemma spaced_app_l b s1 s2 : spaced b (s1 ++ s2) = true → spaced b s1 = true.
Proof.
  revert b. induction s1 as [|c r IH]; intros b; [done|]. simpl.
  destruct (isspace c); [|apply IH].
  intros (Hc & Hr)%andb_prop. rewrite Hc. simpl. by apply IH.
Qed.

Lemma spaced_app_r b s1 s2 : spaced b (s1 ++ s2) = true → spaced false s2 = true.
Proof.
  revert b. induction s1 as [|c r IH]; intros b; [apply spaced_weaken|]. simpl.
  destruct (isspace c); [|apply IH].
  intros (_ & Hr)%andb_prop. by apply IH in Hr.
Qed.

Lemma spaced_sub_space_runs b s : spaced b (sub_space_runs b s) = true.
Proof.
  revert b. induction s as [|c r IH]; intros b; [done|]. simpl.
  destruct (isspace c) eqn:Hc.
  - destruct b; [apply IH|]. simpl. apply IH.
  - simpl. rewrite Hc. apply IH.
Qed.

Lemma sub_space_runs_id b s : spaced b s = true → sub_space_runs b s = s.
Proof.
  revert b. induction s as [|c r IH]; intros b; [done|]. simpl.
  destruct (isspace c).
  - intros ((Hc%N.eqb_eq & Hb%negb_true_iff)%andb_prop & Hr)%andb_prop.
    subst. by rewrite IH.
  - intros Hr. by rewrite IH.
Qed.

Lemma spaced_space b s c :
  spaced b s = true → c ∈ s → isspace c = true → c = SP.
Proof.
  revert b. induction s as [|x r IH]; intros b Hs Hin Hc; [by inversion Hin|].
  simpl in Hs. apply elem_of_cons in Hin as [->|Hin].
  - rewrite Hc in Hs. apply andb_prop in Hs as [Hs _].
    apply andb_prop in Hs as [Hs _]. by apply N.eqb_eq.
  - destruct (isspace x); [|by eapply IH].
    apply andb_prop in Hs as [_ Hs]. by eapply IH.
Qed.

Lemma spaced_before_space b p q c :
  spaced b (p ++ SP :: q) = true → last p = Some c → isspace c = false.
Proof.
  revert b. induction p as [|x r IH]; intros b Hs Hl; [done|].
  simpl in Hs. destruct r as [|y r'].
  - simpl in Hl. injection Hl as <-. simpl in Hs.
    destruct (isspace x); [|done].
    by rewrite andb_false_r in Hs.
  - change (last (x :: y :: r')) with (last (y :: r')) in Hl.
    destruct (isspace x); [|by eapply IH].
    apply andb_prop in Hs as [_ Hs]. by eapply IH.
Qed.

Lemma sub_space_runs_Forall (P : N → Prop) b s :
  P SP → Forall P s → Forall P (sub_space_runs b s).
Proof.
  intros HP Hs. revert b. induction Hs as [|c r Hc Hr IH]; intros b; [done|].
  simpl. destruct (isspace c); [destruct b|]; auto.
Qed.

(** ** [rsplit] *)

Lemma before_last_None sep s : before_last sep s = None → sep ∉ s.
Proof.
  induction s as [|c r IH]; [intros _; apply not_elem_of_nil|]. simpl.
  destruct (before_last sep r); [done|].
  destruct (N.eqb_spec c sep); [done|]. intros _.
  apply not_elem_of_cons. split; [done | by apply IH].
Qed.

Lemma before_last_Some sep s p :
  before_last sep s = Some p → ∃ q, s = p ++ sep :: q ∧ sep ∉ q.
Proof.
  revert p. induction s as [|c r IH]; intros p; [done|]. simpl.
  destruct (before_last sep r) as [p'|] eqn:E.
  - intros [= <-]. destruct (IH p' eq_refl) as (q & -> & Hq). by exists q.
  - destruct (N.eqb_spec c sep) as [->|]; [|done].
    intros [= <-]. exists r. split; [done | by apply before_last_None].
Qed.

Lemma before_last_is_Some sep s : sep ∈ s → is_Some (before_last sep s).
Proof.
  intros Hin. destruct (before_last sep s) eqn:E; [by eexists|].
  by apply before_last_None in E.
Qed.

Lemma rsplit1_head_prefix sep s : ∃ k, s = rsplit1_head sep s ++ k.
Proof.
  unfold rsplit1_head. destruct (before_last sep s) as [p|] eqn:E; simpl.
  - apply before_last_Some in E as (q & -> & _). by eexists.
  - exists []. by rewrite app_nil_r.
Qed.

(** ** [clean_filename] *)

Lemma tidy_prefix p k :
  tidy (p ++ k) → (∀ c, last p = Some c → isspace c = false) → tidy p.
Proof.
  intros (Hsp & Hrun & Hhead & _) Hlast. repeat split.
  - by apply Forall_app in Hsp as [? _].
  - by eapply spaced_app_l.
  - intros c Hc. apply Hhead. by destruct p.
  - done.
Qed.

Lemma tidy_limit n : tidy n → tidy (rsplit1_head SP (take 100 n)).
Proof.
  intros Hn. unfold rsplit1_head.
  destruct (before_last SP (take 100 n)) as [p|] eqn:E; simpl.
  - apply before_last_Some in E as (q & Hq & _).
    assert (n = p ++ SP :: (q ++ drop 100 n)) as Hsplit.
    { rewrite <- (take_drop 100 n) at 1. rewrite Hq.
      by rewrite <- app_assoc. }
    rewrite Hsplit in Hn. eapply tidy_prefix; [exact Hn|].
    intros c Hc. destruct Hn as (_ & Hrun & _).
    by eapply spaced_before_space.
  - apply before_last_None in E.
    rewrite <- (take_drop 100 n) in Hn. eapply tidy_prefix; [exact Hn|].
    intros c Hc. destruct Hn as (_ & Hrun & _).
    apply spaced_app_l in Hrun.
    destruct (isspace c) eqn:Hsp; [|done]. exfalso. apply E.
    assert (c ∈ take 100 n) as Hin.
    { apply last_Some in Hc as (l' & ->). set_solver. }
    by rewrite <- (spaced_space _ _ _ Hrun Hin Hsp).
Qed.

Lemma rsplit1_head_take_length n : length (rsplit1_head SP (take 100 n)) ≤ 100.
Proof.
  destruct (rsplit1_head_prefix SP (take 100 n)) as (k & Hk).
  assert (length (take 100 n) ≤ 100) as Hlen by (rewrite length_take; lia).
  rewrite Hk, length_app in Hlen. lia.
Qed.

Section CleanFilename.
Context {ext : Externals}.

Lemma sub_special_Forall text :
  Forall (λ c, is_special c = false) (sub_special text).
Proof.
  unfold sub_special. apply Forall_fmap, Forall_true. intros c. simpl.
  destruct (is_special c) eqn:E; [apply is_special_SP | done].
Qed.

Lemma sub_trailing_punct_no_newline s :
  Forall (λ c, is_special c = false) s →
  sub_trailing_punct s = rstrip_class is_punct s.
Proof.
  intros Hs. unfold sub_trailing_punct. destruct (last s) as [c|] eqn:E.
  - destruct (N.eqb_spec c LF) as [->|]; [|done].
    apply last_Some in E as (l' & ->).
    apply Forall_app in Hs as [_ Hs]. by inversion Hs.
  - apply last_None in E. by subst.
Qed.

Lemma normalized_form_tidy text : tidy (normalized_form text).
Proof.
  unfold normalized_form.
  pose proof (sub_special_Forall (replace_emoji text)) as Hsp.
  rewrite (sub_trailing_punct_no_newline _ Hsp).
  destruct (rstrip_class_spec is_punct (sub_special (replace_emoji text)))
    as (k & Hk & _). rewrite Hk in Hsp. apply Forall_app in Hsp as [Hsp _].
  set (x := rstrip_class is_punct (sub_special (replace_emoji text))) in *.
  destruct (strip_spec (sub_space_runs false x)) as (k1 & k2 & Hx & _ & _ & Hh & Hl).
  assert (Forall (λ c, is_special c = false) (sub_space_runs false x)) as HF
    by (by apply sub_space_runs_Forall).
  pose proof (spaced_sub_space_runs false x) as Hrun.
  rewrite Hx in HF, Hrun. repeat split; [|  |done|done].
  - apply Forall_app in HF as [_ HF]. by apply Forall_app in HF as [HF _].
  - apply spaced_app_r in Hrun. by apply spaced_app_l in Hrun.
Qed.

Lemma clean_filename_eq text :
  clean_filename text =
    if 100 <? length (normalized_form text)
    then rsplit1_head SP (take 100 (normalized_form text))
    else normalized_form text.
Proof. reflexivity. Qed.

Lemma clean_filename_tidy text : tidy (clean_filename text).
Proof.
  rewrite clean_filename_eq. destruct (100 <? _).
  - apply tidy_limit, normalized_form_tidy.
  - apply normalized_form_tidy.
Qed.

Lemma clean_filename_length text : length (clean_filename text) ≤ 100.
Proof.
  rewrite clean_filename_eq. destruct (Nat.ltb_spec 100 (length (normalized_form text))).
  - apply rsplit1_head_take_length.
  - done.
Qed.

(** A tidy string of at most 100 characters that does not end in
    punctuation is left as it is by every step after the emoji removal. *)
Lemma tidy_fixed s :
  tidy s → length s ≤ 100 →
  (∀ c, last s = Some c → is_punct c = false) →
  strip (sub_space_runs false (sub_trailing_punct (sub_special s))) = s.
Proof.
  intros (Hsp & Hrun & Hh & Hl) Hlen Hp.
  assert (sub_special s = s) as ->.
  { unfold sub_special. rewrite <- (list_fmap_id s) at 2.
    apply list_fmap_ext. intros i c Hc. simpl.
    by rewrite (proj1 (Forall_lookup _ _) Hsp i c Hc). }
  rewrite (sub_trailing_punct_no_newline _ Hsp).
  rewrite (rstrip_class_id _ _ Hp), (sub_space_runs_id _ _ Hrun).
  by apply strip_id.
Qed.

End CleanFilename.

(** C4: for every input, the result of [clean_filename] contains none of
    the characters [< > : / \ | ? *] or the double quote, no line feed and
    no carriage return (the members of [special_chars]), neither starts
    nor ends with
    whitespace, and has at most 100 characters. *)
Theorem clean_filename_safe {ext : Externals} (text : str) :
  (∀ c, c ∈ special_chars → c ∉ clean_filename text)
  ∧ (∀ c, head (clean_filename text) = Some c → isspace c = false)
  ∧ (∀ c, last (clean_filename text) = Some c → isspace c = false)
  ∧ length (clean_filename text) ≤ 100.
Proof.
  destruct (clean_filename_tidy text) as (Hsp & _ & Hh & Hl).
  repeat split; [|done|done|apply clean_filename_length].
  intros c Hc Hin. apply in_class_spec in Hc.
  rewrite Forall_forall in Hsp. specialize (Hsp c Hin).
  unfold is_special in Hsp. congruence.
Qed.

(** The list of characters C4 speaks of. *)
Example special_chars_codes :
  special_chars = [60; 62; 58; 34; 47; 92; 124; 63; 42; 10; 13]%N.
Proof. reflexivity. Qed.

(** C2 as stated fails: the first pass turns the question mark of
    [Really!?] into a space,
    which shields the exclamation mark from line 16; the second pass
    removes it. *)
Lemma clean_filename_not_idempotent :
  clean_filename (ext := sample_externals)
      (clean_filename (ext := sample_externals) (lit "Really!?"))
    ≠ clean_filename (ext := sample_externals) (lit "Really!?").
Proof. vm_compute. discriminate. Qed.

Example clean_filename_really :
  clean_filename (ext := sample_externals) (lit "Really!?") = lit "Really!"
  ∧ clean_filename (ext := sample_externals) (lit "Really!") = lit "Really".
Proof. split; reflexivity. Qed.

(** C2, amended: a second pass of [clean_filename] changes nothing when the
    result of the first pass does not end in one of [. , ! ? ; :] and the
    emoji removal leaves it as it is. *)
Theorem clean_filename_idempotent_unpunctuated {ext : Externals} (text : str) :
  replace_emoji (clean_filename text) = clean_filename text →
  ends_with_punct (clean_filename text) = false →
  clean_filename (clean_filename text) = clean_filename text.
Proof.
  intros Hemoji Hpunct.
  pose proof (clean_filename_tidy text) as Htidy.
  pose proof (clean_filename_length text) as Hlen.
  assert (normalized_form (clean_filename text) = clean_filename text) as Hfix.
  { unfold normalized_form. rewrite Hemoji. apply tidy_fixed; [done..|].
    intros c Hc. unfold ends_with_punct in Hpunct. by rewrite Hc in Hpunct. }
  rewrite (clean_filename_eq (clean_filename text)), Hfix.
  by destruct (Nat.ltb_spec 100 (length (clean_filename text))); [lia|].
Qed.

Lemma clean_filename_idempotent_witness :
  clean_filename (ext := sample_externals)
      (clean_filename (ext := sample_externals) (lit "Really!? Yes: 100%"))
    = clean_filename (ext := sample_externals) (lit "Really!? Yes: 100%").
Proof.
  apply (clean_filename_idempotent_unpunctuated (ext := sample_externals));
    reflexivity.
Defined.

(** C3 as stated fails: a word of 101 letters is cut after its 100th
    letter, inside the word. *)
Lemma long_word_cut_mid_word :
  100 < length (normalized_form (ext := sample_externals) (replicate 101 97%N))
  ∧ cut_mid_word
      (normalized_form (ext := sample_externals) (replicate 101 97%N))
      (clean_filename (ext := sample_externals) (replicate 101 97%N)).
Proof.
  split; [vm_compute; lia|].
  exists 97%N, 97%N, []. split; [|split]; [vm_compute; reflexivity..|].
  split; discriminate.
Qed.

(** C3, amended: when the normalized form has more than 100 characters, the
    result is the part of its first 100 characters before their last space;
    if these 100 characters hold a space, the result is followed by a space
    and so does not end inside a word; if they hold none, nothing is
    discarded and the result is the 100 characters themselves. *)
Theorem clean_filename_limit {ext : Externals} (text : str) :
  100 < length (normalized_form text) →
  clean_filename text = rsplit1_head SP (take 100 (normalized_form text))
  ∧ (SP ∈ take 100 (normalized_form text) →
       (∃ rest, take 100 (normalized_form text) = clean_filename text ++ SP :: rest
                ∧ SP ∉ rest)
       ∧ ¬ cut_mid_word (normalized_form text) (clean_filename text))
  ∧ (SP ∉ take 100 (normalized_form text) →
       clean_filename text = take 100 (normalized_form text)).
Proof.
  intros Hlen. rewrite clean_filename_eq.
  destruct (Nat.ltb_spec 100 (length (normalized_form text))); [|lia].
  split; [done|]. unfold rsplit1_head. split.
  - intros Hin. destruct (before_last_is_Some _ _ Hin) as [p Hp].
    rewrite Hp. simpl. apply before_last_Some in Hp as (q & Hq & Hnot).
    split; [by exists q|].
    intros (a & b & rest & Hfull & _ & _ & Hb).
    rewrite <- (take_drop 100 (normalized_form text)) in Hfull at 1.
    rewrite Hq, <- app_assoc in Hfull. apply app_inv_head in Hfull.
    simpl in Hfull. congruence.
  - intros Hnot. destruct (before_last SP _) as [p|] eqn:Hp; [|done].
    apply before_last_Some in Hp as (q & Hq & _). exfalso. apply Hnot.
    rewrite Hq. set_solver.
Qed.

Lemma clean_filename_limit_witness :
  clean_filename (ext := sample_externals) (concat (replicate 30 (lit "word ")))
  = rsplit1_head SP
      (take 100 (normalized_form (ext := sample_externals)
                   (concat (replicate 30 (lit "word "))))).
Proof.
  apply (clean_filename_limit (ext := sample_externals)
           (concat (replicate 30 (lit "word ")))).
  vm_compute. lia.
Defined.

(** ** The collapse of newlines (line 185) *)

Lemma flush_newlines_replicate n :
  flush_newlines n = replicate (if 3 <=? n then 2 else n) LF.
Proof. unfold flush_newlines. by destruct (3 <=? n). Qed.

Lemma sub_newline_runs_replicate k n s :
  sub_newline_runs k (replicate n LF ++ s) = sub_newline_runs (k + n) s.
Proof.
  revert k. induction n as [|n IH]; intros k; simpl.
  - by rewrite Nat.add_0_r.
  - rewrite IH. f_equal. lia.
Qed.

Lemma sub_newline_runs_app k before rest :
  ends_with LF before = false → (before = [] → k = 0) →
  sub_newline_runs k (before ++ rest)
  = sub_newline_runs k before ++ sub_newline_runs 0 rest.
Proof.
  revert k. induction before as [|c r IH]; intros k Hend Hk.
  - by rewrite Hk.
  - simpl. assert (r ≠ [] → ends_with LF r = false) as Hr.
    { intros Hne. destruct r; [done|]. exact Hend. }
    destruct (N.eqb_spec c LF) as [->|Hc].
    + destruct r as [|x r']; [done|]. by apply IH; [apply Hr|].
    + rewrite <- app_assoc. simpl. do 2 f_equal.
      destruct r as [|x r']; [done|]. by apply IH; [apply Hr|].
Qed.

Lemma sub_newline_runs_head k s :
  starts_with LF s = false →
  sub_newline_runs k s = flush_newlines k ++ sub_newline_runs 0 s.
Proof.
  destruct s as [|c r]; simpl.
  - intros _. by rewrite app_nil_r.
  - unfold starts_with. simpl. by intros ->.
Qed.

(** Text without newlines is copied. *)
Lemma collapse_newlines_plain s : LF ∉ s → collapse_newlines s = s.
Proof.
  unfold collapse_newlines. induction s as [|c r IH]; [done|].
  intros [Hc Hr]%not_elem_of_cons. simpl.
  destruct (N.eqb_spec c LF); [done|]. simpl. by rewrite IH.
Qed.

(** C6: a run of [n] newlines, bounded on each side by the end of the text
    or by another character, becomes two newlines when [n] is three or
    more and is left as it is when [n] is one or two; the text on either
    side is converted on its own. *)
Theorem collapse_newlines_run (before after : str) (n : nat) :
  ends_with LF before = false → starts_with LF after = false →
  collapse_newlines (before ++ replicate n LF ++ after)
  = collapse_newlines before
    ++ replicate (if 3 <=? n then 2 else n) LF
    ++ collapse_newlines after.
Proof.
  intros Hb Ha. unfold collapse_newlines.
  rewrite sub_newline_runs_app by done.
  rewrite sub_newline_runs_replicate, (sub_newline_runs_head _ _ Ha).
  by rewrite flush_newlines_replicate.
Qed.

Lemma collapse_newlines_run_witness :
  collapse_newlines (lit "ab" ++ replicate 5 LF ++ lit "cd")
  = collapse_newlines (lit "ab") ++ replicate 2 LF ++ collapse_newlines (lit "cd").
Proof.
  apply (collapse_newlines_run (lit "ab") (lit "cd") 5); reflexivity.
Defined.

Example collapse_newlines_five :
  collapse_newlines (lit "a" ++ replicate 5 LF ++ lit "b" ++ [LF; LF] ++ lit "c" ++ [LF] ++ lit "d")
  = lit "a" ++ [LF; LF] ++ lit "b" ++ [LF; LF] ++ lit "c" ++ [LF] ++ lit "d".
Proof. reflexivity. Qed.

(** ** [convert_tag_to_md] *)

Lemma node_ind' (P : node → Prop) :
  (∀ s, P (NavigableString s)) →
  (∀ cls s, P (SubclassString cls s)) →
  (∀ name attrs ch, Forall P ch → P (Tag name attrs ch)) →
  ∀ n, P n.
Proof.
  intros Hs Hc Ht. fix IH 1. intros [s|cls s|name attrs ch]; [apply Hs|apply Hc|].
  apply Ht. induction ch as [|x r IHr]; constructor; [apply IH | exact IHr].
Qed.

Lemma has_text_no_strings keep n : has_text n = false → strings_of keep n = [].
Proof.
  induction n as [s|cls s|name attrs ch IH] using node_ind'; [done|done|]. simpl.
  induction IH as [|x r Hx _ IHr]; [done|]. simpl.
  intros [Hx' Hr]%orb_false_elim. by rewrite Hx, IHr.
Qed.

Lemma has_text_false n : has_text n = false → get_text n = [].
Proof.
  destruct n as [s|cls s|name attrs ch]; [done|done|].
  apply has_text_no_strings.
Qed.

Lemma strip_whitespace s : Forall (λ c, isspace c = true) s → strip s = [].
Proof.
  unfold strip. induction 1 as [|c r Hc _ IH]; [done|]. simpl. by rewrite Hc.
Qed.

(** The loop body on a tag child, in terms of the recursive calls. *)
Lemma child_part_Tag name attrs ch :
  child_part (Tag name attrs ch)
  = tag_part name (Tag name attrs ch)
      (convert_tag_to_md (Some (Tag name attrs ch)))
      ((λ item, convert_tag_to_md (Some item)) <$> find_li (Tag name attrs ch)).
Proof.
  cbn -[name_in tag_part]. f_equal. unfold find_li. cbn -[name_in].
  induction ch as [|x r IH]; [done|].
  destruct x as [s|cls s|n a sub]; cbn -[name_in]; [done|done|].
  destruct (name_in ["li"]%string n); cbn -[name_in]; by rewrite IH.
Qed.

Lemma convert_tag_to_md_children t :
  convert_tag_to_md (Some t) = concat (child_part <$> children t).
Proof. reflexivity. Qed.

Lemma strip_infix s : ∃ pre post, s = pre ++ strip s ++ post.
Proof. destruct (strip_spec s) as (k1 & k2 & Hs & _). by exists k1, k2. Qed.

(** C7: a [strong] or [b] child contributes its converted and trimmed
    content between two [**], an [em] or [i] child between two [*]; when
    the trimmed content is empty, as it is for content that is all
    whitespace, the child contributes nothing, so never a bare pair of
    markers.  The converted content of an element is the concatenation of
    what its children contribute, and a string contributes its characters:
    an element holding the one string [s] gives [s] trimmed between the
    markers, and nothing when [s] is blank. *)
Theorem bold_italic_markers (attrs : gmap (list N) (list N)) (ch : list node) :
  Forall (λ name,
      let child := Tag (lit name) attrs ch in
      let content := strip (convert_tag_to_md (Some child)) in
      child_part child
        = (if content is [] then [] else lit "**" ++ content ++ lit "**")
      ∧ (Forall (λ c, isspace c = true) (convert_tag_to_md (Some child)) →
         child_part child = [])
      ∧ child_part child ≠ lit "****"
      ∧ ∀ s, child_part (Tag (lit name) attrs [NavigableString s])
             = (if strip s is [] then [] else lit "**" ++ strip s ++ lit "**"))
    ["strong"; "b"]%string
  ∧ Forall (λ name,
      let child := Tag (lit name) attrs ch in
      let content := strip (convert_tag_to_md (Some child)) in
      child_part child
        = (if content is [] then [] else lit "*" ++ content ++ lit "*")
      ∧ (Forall (λ c, isspace c = true) (convert_tag_to_md (Some child)) →
         child_part child = [])
      ∧ child_part child ≠ lit "**"
      ∧ ∀ s, child_part (Tag (lit name) attrs [NavigableString s])
             = (if strip s is [] then [] else lit "*" ++ strip s ++ lit "*"))
    ["em"; "i"]%string
  ∧ (∀ name, convert_tag_to_md (Some (Tag name attrs ch)) = concat (child_part <$> ch))
  ∧ (∀ s, child_part (NavigableString s) = s)
  ∧ (∀ cls s, child_part (SubclassString cls s) = s)
  ∧ child_part (Tag (lit "b") attrs [NavigableString (lit "x")]) = lit "**x**"
  ∧ child_part
      (Tag (lit "strong") attrs
         [NavigableString (lit "very "); Tag (lit "em") attrs [NavigableString (lit "loud")]])
    = lit "**very *loud***"
  ∧ child_part (Tag (lit "i") attrs [NavigableString (lit "  ")]) = [].
Proof.
  split; [|split; [|by repeat split]];
    repeat constructor; try rewrite child_part_Tag;
    try (intros Hws; unfold tag_part; simpl name_in; cbv iota;
         by rewrite (strip_whitespace _ Hws));
    try (intros s; rewrite child_part_Tag; unfold tag_part; simpl name_in; cbv iota;
         cbn [convert_tag_to_md children map child_part concat];
         by rewrite app_nil_r);
    unfold tag_part; simpl name_in; cbv iota;
    destruct (strip _); try done;
    intros Heq%(f_equal length); rewrite !length_app in Heq; simpl in Heq; lia.
Qed.

Lemma tag_part_fallback name child inner items :
  name_in known_names name = false → tag_part name child inner items = inner.
Proof.
  unfold tag_part, name_in, known_names. cbn [existsb]. intros Hname.
  repeat match type of Hname with
         | _ || _ = false => apply orb_false_elim in Hname as [-> Hname]
         end.
  done.
Qed.

(** C10: an [a] child whose [href] is missing or empty contributes
    nothing, whatever text it holds.  The branches that pass the child
    itself to [convert_tag_to_md] ([strong], [b], [em], [i], [code],
    [pre], [li], [div]) keep its trimmed conversion as a part of what they
    contribute, and a child of any other name contributes its conversion
    as it is. *)
Theorem link_without_target_dropped (attrs : gmap (list N) (list N)) (ch : list node) :
  default [] (attrs !! lit "href") = [] →
  child_part (Tag (lit "a") attrs ch) = []
  ∧ Forall (λ name,
        let child := Tag (lit name) attrs ch in
        ∃ pre post,
          child_part child = pre ++ strip (convert_tag_to_md (Some child)) ++ post)
      ["strong"; "b"; "em"; "i"; "code"; "pre"; "li"; "div"]%string
  ∧ ∀ name,
      name_in known_names name = false →
      child_part (Tag name attrs ch) = convert_tag_to_md (Some (Tag name attrs ch)).
Proof.
  intros Hhref. split; [|split].
  - rewrite child_part_Tag. unfold tag_part. simpl name_in. cbv iota.
    unfold get_attr. rewrite Hhref. by destruct (strip _).
  - repeat constructor; cbv zeta; rewrite child_part_Tag;
      unfold tag_part; simpl name_in; cbv iota;
      match goal with
      | |- context [convert_tag_to_md ?t] =>
          destruct (strip_infix (convert_tag_to_md t)) as (k1 & k2 & Hk);
          set (inner := convert_tag_to_md t) in *
      end.
    + destruct (strip inner); [by exists [], [] | by eexists _, _].
    + destruct (strip inner); [by exists [], [] | by eexists _, _].
    + destruct (strip inner); [by exists [], [] | by eexists _, _].
    + destruct (strip inner); [by exists [], [] | by eexists _, _].
    + exists (lit "`" ++ k1), (k2 ++ lit "`").
      rewrite Hk at 1. by rewrite <- !app_assoc.
    + exists (lit "```" ++ [LF]), ([LF] ++ lit "```"). by rewrite <- !app_assoc.
    + by exists k1, k2.
    + destruct inner as [|c r] eqn:E.
      * by exists [], [].
      * exists k1, (k2 ++ [LF]). rewrite Hk at 1. by rewrite <- !app_assoc.
  - intros name Hname. rewrite child_part_Tag. by apply tag_part_fallback.
Qed.

Lemma link_without_target_witness :
  strip (get_text (Tag (lit "a") ∅ [NavigableString (lit "click here")])) ≠ []
  ∧ child_part (Tag (lit "a") ∅ [NavigableString (lit "click here")]) = [].
Proof.
  split; [vm_compute; discriminate|].
  apply (link_without_target_dropped ∅ [NavigableString (lit "click here")]).
  reflexivity.
Defined.

(** ** Dates *)


Section PipelineFacts.
Context {ext : Externals}.

Lemma strptime_Ok token d :
  strptime token = Ok d →
  format_match token = Some (d, []) ∧ valid_date d = true.
Proof.
  unfold strptime. destruct (format_match token) as [[d' rest]|]; [|done].
  destruct rest; [|done]. destruct (valid_date d') eqn:E; [|done].
  by intros [= <-].
Qed.

Lemma strptime_Raise token e : strptime token = Raise e → e = ValueError.
Proof.
  unfold strptime. destruct (format_match token) as [[d' rest]|]; [|congruence].
  destruct rest; [|congruence]. destruct (valid_date d'); congruence.
Qed.

Lemma try_date_Raise date_title e :
  try_date date_title = Raise e → e = ValueError ∨ e = IndexError.
Proof.
  unfold try_date. destruct (str_split date_title) as [|token l]; simpl.
  - intros [= <-]. by right.
  - destruct (strptime token) eqn:E; simpl; [done|].
    intros [= <-]. left. by eapply strptime_Raise.
Qed.

Lemma extract_date_Ok date_div : ∃ date_str, extract_date date_div = Ok date_str.
Proof.
  destruct date_div as [d|]; simpl; [|by eexists].
  destruct (try_date _) as [s|e] eqn:E; [by eexists|].
  apply try_date_Raise in E as [->| ->]; by eexists.
Qed.

Lemma extract_title_and_date_Ok m :
  ∃ title date_str, extract_title_and_date m = Ok (title, date_str).
Proof.
  unfold extract_title_and_date. destruct (text_div m); [|by eexists _, _].
  destruct (extract_first_meaningful_line _) as [[|c l]|]; [by eexists _, _| |by eexists _, _].
  destruct (extract_date_Ok (date_div m)) as [d ->]. simpl. by eexists _, _.
Qed.

End PipelineFacts.

(** ** The loop *)

Section Loop.
Context {ext : Externals}.

Lemma step_skip st m : filename_of m = None → step st m = Ok st.
Proof.
  unfold filename_of, step. destruct (text_div m); [|done].
  destruct (strip _); [done|].
  destruct (extract_title_and_date_Ok m) as (title & d & ->). simpl.
  by destruct title as [[|tc tl]|].
Qed.

Lemma step_duplicate st m f :
  filename_of m = Some f → f ∈ used_filenames st → step st m = Ok st.
Proof.
  unfold filename_of, step. destruct (text_div m); [|done].
  destruct (strip _); [done|].
  destruct (extract_title_and_date_Ok m) as (title & d & ->). simpl.
  destruct title as [[|tc tl]|]; [done| |done].
  intros [= <-] Hin. by rewrite decide_True.
Qed.

Lemma document_of_filename author0 m :
  fst <$> document_of author0 m = filename_of m.
Proof.
  unfold document_of, filename_of. destruct (text_div m); [|done].
  destruct (strip _); [done|].
  by destruct (extract_title_and_date m) as [[[[|tc tl]|] d]|].
Qed.

(** The loop body in one equation: the file prepared for the message is
    written unless its name is registered, and the write can fail. *)
Lemma step_document st m :
  step st m
  = match document_of (last_author st) m with
    | None => Ok st
    | Some (f, content) =>
        if decide (f ∈ used_filenames st) then Ok st
        else if accepts_write (written st) f content
             then Ok (with_file st f content)
             else Raise OSError
    end.
Proof.
  unfold step, document_of, resolve_author. destruct (text_div m); [|done].
  destruct (strip _); [done|].
  destruct (extract_title_and_date_Ok m) as (title & d & ->). simpl.
  destruct title as [[|tc tl]|]; [done| |done]. by destruct (decide _).
Qed.

Lemma step_fresh st m f :
  filename_of m = Some f → f ∉ used_filenames st →
  ∃ content,
    document_of (last_author st) m = Some (f, content)
    ∧ step st m = (if accepts_write (written st) f content
                   then Ok (with_file st f content)
                   else Raise OSError).
Proof.
  intros Hf Hin. rewrite step_document.
  rewrite <- (document_of_filename (last_author st)) in Hf.
  destruct (document_of (last_author st) m) as [[g content]|]; [|done].
  injection Hf as ->. exists content. split; [done|]. by rewrite decide_False.
Qed.

(** An iteration that ends normally either leaves the state as it was or
    writes the file of the message, whose name was not registered. *)
Lemma step_Ok st m st' :
  step st m = Ok st' →
  st' = st
  ∨ ∃ f content,
      document_of (last_author st) m = Some (f, content)
      ∧ filename_of m = Some f ∧ (f ∉ used_filenames st)
      ∧ accepts_write (written st) f content = true
      ∧ st' = with_file st f content.
Proof.
  rewrite step_document.
  pose proof (document_of_filename (last_author st) m) as Hf.
  destruct (document_of (last_author st) m) as [[f content]|];
    [|intros [= <-]; by left].
  destruct (decide (f ∈ used_filenames st)); [intros [= <-]; by left|].
  destruct (accepts_write (written st) f content) eqn:E; [|done].
  intros [= <-]. right. by exists f, content.
Qed.


(** An iteration keeps [last_author], and what it changes it only
    extends. *)
Lemma step_extends st m st' :
  step st m = Ok st' →
  last_author st' = last_author st
  ∧ used_filenames st ⊆ used_filenames st'
  ∧ written st `prefix_of` written st'.
Proof.
  intros [->|(f & content & _ & _ & _ & _ & ->)]%step_Ok; [done|].
  simpl. split; [done|]. split; [set_solver | by apply prefix_app_r].
Qed.

Lemma step_consistent st m st' :
  consistent st → step st m = Ok st' → consistent st'.
Proof.
  intros (Hused & Hnodup & Hcount)
    [->|(f & content & _ & _ & Hin & _ & ->)]%step_Ok; [done|].
  unfold consistent. simpl. rewrite fmap_app. simpl. repeat split.
  - rewrite list_to_set_app_L, Hused. set_solver.
  - apply NoDup_app. split; [done|]. split; [|apply NoDup_singleton].
    intros x Hx ->%list_elem_of_singleton. apply Hin.
    rewrite Hused. by apply elem_of_list_to_set.
  - rewrite length_app. simpl. lia.
Qed.

Lemma run_from_author st messages st' :
  run_from st messages = Ok st' → last_author st' = last_author st.
Proof.
  revert st. induction messages as [|m rest IH]; intros st; simpl.
  - by intros [= <-].
  - destruct (step st m) as [st1|e] eqn:E; simpl; [|done].
    intros ->%IH. by apply step_extends in E as [? _].
Qed.

Lemma run_from_app st before after :
  run_from st (before ++ after) = run_from st before ≫= (λ st1, run_from st1 after).
Proof.
  revert st. induction before as [|m rest IH]; intros st; [done|].
  simpl. destruct (step st m) as [st1|e]; simpl; [apply IH | done].
Qed.

(** A run that ends normally has passed every message of it normally. *)
Lemma run_from_split st before m after st' :
  run_from st (before ++ m :: after) = Ok st' →
  ∃ st1 st2,
    run_from st before = Ok st1 ∧ step st1 m = Ok st2 ∧ run_from st2 after = Ok st'.
Proof.
  rewrite run_from_app. destruct (run_from st before) as [st1|e]; [|done].
  simpl. destruct (step st1 m) as [st2|e] eqn:E; [|done]. simpl.
  intros Hrun. by exists st1, st2.
Qed.



Lemma run_from_consistent st messages st' :
  consistent st → run_from st messages = Ok st' → consistent st'.
Proof.
  revert st. induction messages as [|m rest IH]; intros st Hst; simpl.
  - by intros [= <-].
  - destruct (step st m) as [st1|e] eqn:E; simpl; [|done].
    apply IH. by eapply step_consistent.
Qed.

Lemma step_used st m st' f :
  step st m = Ok st' →
  f ∈ used_filenames st' ↔ f ∈ used_filenames st ∨ filename_of m = Some f.
Proof.
  intros Hstep. destruct (filename_of m) as [g|] eqn:E.
  - destruct (decide (g ∈ used_filenames st)) as [Hin|Hin].
    + rewrite (step_duplicate _ _ _ E Hin) in Hstep. injection Hstep as <-.
      naive_solver.
    + destruct (step_fresh _ _ _ E Hin) as (content & _ & Hfresh).
      rewrite Hfresh in Hstep. destruct (accepts_write _ _ _); [|done].
      injection Hstep as <-. simpl.
      rewrite elem_of_union, elem_of_singleton. naive_solver.
  - rewrite (step_skip _ _ E) in Hstep. injection Hstep as <-. naive_solver.
Qed.

Lemma run_from_used st messages st' f :
  run_from st messages = Ok st' →
  f ∈ used_filenames st'
  ↔ f ∈ used_filenames st ∨ ∃ m, m ∈ messages ∧ filename_of m = Some f.
Proof.
  revert st. induction messages as [|m rest IH]; intros st; simpl.
  - intros [= <-]. split; [by left|]. intros [?|(m & Hm & _)]; [done|].
    by apply elem_of_nil in Hm.
  - destruct (step st m) as [st1|e] eqn:E; simpl; [|done].
    intros Hrun. rewrite (IH _ Hrun), (step_used _ _ _ f E). split.
    + intros [[?|?]|(m' & ? & ?)]; [by left|right..].
      * exists m. split; [apply list_elem_of_here | done].
      * exists m'. split; [by apply list_elem_of_further | done].
    + intros [?|(m' & [->|?]%elem_of_cons & ?)]; [by left; left | by left; right|].
      right. by exists m'.
Qed.

Lemma consistent_initial : consistent initial.
Proof. repeat split. apply NoDup_nil_2. Qed.

End Loop.



(** A first line of 100 CJK characters gives a name of 303 bytes: where
    names are limited to 255 bytes the write is refused and the run ends
    with [OSError]. *)
Example long_name_refused :
  let m := {| text_div := Some (Tag (lit "div") ∅ [NavigableString (replicate 100 20013%N)]);
              author_div := None; date_div := None |} in
  filename_of (ext := sample_externals) m = Some (replicate 100 20013%N ++ lit ".md")
  ∧ run (ext := sample_externals) [m] = Raise OSError.
Proof. split; vm_compute; reflexivity. Qed.

(** C9: a message whose body has no text node is skipped at line 176,
    whatever its body would convert to: the state is unchanged, nothing is
    written. *)
Theorem textless_body_skipped {ext : Externals} (st : state) (m : message) (body : node) :
  text_div m = Some body → has_text body = false →
  get_text body = [] ∧ step st m = Ok st.
Proof.
  intros Hbody Htext. apply has_text_false in Htext. split; [done|].
  unfold step. by rewrite Hbody, Htext.
Qed.

(** A body that holds only a link with a target and no text converts to
    the bare target, and is skipped. *)
Lemma textless_body_skipped_witness :
  let body := Tag (lit "div") ∅
                [Tag (lit "a") {[ lit "href" := lit "https://example.org" ]} []] in
  let m := {| text_div := Some body; author_div := None; date_div := None |} in
  convert_tag_to_md (Some body) = lit "https://example.org"
  ∧ get_text body = []
  ∧ step (ext := sample_externals) initial m = Ok initial.
Proof.
  intros body m. split; [reflexivity|].
  apply (textless_body_skipped (ext := sample_externals) initial m body);
    reflexivity.
Defined.

Example extract_date_samples :
  extract_date (ext := sample_externals) (date_element "12.03.2021 10:11:12 UTC+03:00")
    = Ok (Some (lit "2021-03-12"))
  ∧ extract_date (ext := sample_externals) (date_element "7.1.2020") = Ok (Some (lit "2020-01-07"))
  ∧ extract_date (ext := sample_externals) (date_element "31.02.2021 10:11:12") = Ok None
  ∧ extract_date (ext := sample_externals) (date_element "2021-03-12") = Ok None
  ∧ extract_date (ext := sample_externals) (date_element "01.01.0999") = Ok (Some (lit "999-01-01"))
  ∧ extract_date (ext := sample_externals) (date_element "   ") = Ok None
  ∧ extract_date (ext := sample_externals) (Some (Tag (lit "div") ∅ [])) = Ok None
  ∧ extract_date (ext := sample_externals) None = Ok None.
Proof. repeat split; reflexivity. Qed.

(** ** The author of a message *)

(** No iteration assigns [last_author]: whatever came before, a message
    without a [.from_name] element gets the initial value. *)
Lemma last_author_never_assigned {ext : Externals}
    (before : list message) (st : state) (m : message) :
  run before = Ok st → author_div m = None →
  last_author st = lit "Unknown Author"
  ∧ resolve_author m st = lit "Unknown Author".
Proof.
  intros Hauthor%run_from_author Hm. unfold resolve_author. by rewrite Hm, Hauthor.
Qed.

(** C1, on the messages [A(author=Alice), B(no author)]: the file written
    for B names the author [Unknown Author], not [Alice]. *)
Theorem author_not_carried_forward :
  let A := {| text_div := text_element "First message text";
              author_div := text_element "Alice"; date_div := None |} in
  let B := {| text_div := text_element "Second message text";
              author_div := None; date_div := None |} in
  ∃ st,
    run (ext := sample_externals) [A; B] = Ok st
    ∧ last_author st = lit "Unknown Author"
    ∧ written st =
        [ (lit "First message text.md",
           lit "---" ++ [LF] ++ lit "author: " ++ [DQUOTE] ++ lit "Alice" ++ [DQUOTE]
             ++ [LF] ++ lit "---" ++ [LF; LF] ++ lit "First message text");
          (lit "Second message text.md",
           lit "---" ++ [LF] ++ lit "author: " ++ [DQUOTE] ++ lit "Unknown Author"
             ++ [DQUOTE] ++ [LF] ++ lit "---" ++ [LF; LF] ++ lit "Second message text") ].
Proof. eexists. split; [vm_compute; reflexivity|]. split; reflexivity. Qed.

(** ** A date written [DD.MM.YYYY] *)

Lemma digit_cases (P : N → Prop) :
  Forall P [0; 1; 2; 3; 4; 5; 6; 7; 8; 9]%N → ∀ v, (v < 10)%N → P v.
Proof.
  intros HP v Hv. rewrite Forall_forall in HP. apply HP.
  assert (v ∈ N.of_nat <$> seq 0 10) as Hin.
  { apply list_elem_of_fmap. exists (N.to_nat v). split; [lia|].
    apply elem_of_seq. lia. }
  exact Hin.
Qed.

Lemma ascii_range_value (lo hi v : N) :
  (lo ≤ v ≤ hi)%N → ascii_range lo hi (48 + v) = Some v.
Proof.
  intros Hv. unfold ascii_range.
  destruct (N.leb_spec (48 + lo) (48 + v)); [|lia].
  destruct (N.leb_spec (48 + v) (48 + hi)); [|lia].
  simpl. f_equal. lia.
Qed.

Lemma ascii_range_out (lo hi v : N) :
  (v < lo ∨ hi < v)%N → ascii_range lo hi (48 + v) = None.
Proof.
  intros Hv. unfold ascii_range.
  destruct (N.leb_spec (48 + lo) (48 + v)); [|done].
  destruct (N.leb_spec (48 + v) (48 + hi)); [lia|done].
Qed.

Lemma isspace_digit v : (v < 10)%N → isspace (48 + v) = false.
Proof. revert v. apply digit_cases. by repeat constructor. Qed.

Lemma pad2_digits a b :
  (a < 10)%N → (b < 10)%N → pad2 (10 * a + b) = [48 + a; 48 + b]%N.
Proof.
  revert a. apply (digit_cases (λ a, (b < 10)%N → _)).
  repeat constructor; revert b; apply digit_cases; by repeat constructor.
Qed.

Lemma pad4_digits y1 y2 y3 y4 :
  (y1 < 10)%N → (y2 < 10)%N → (y3 < 10)%N → (y4 < 10)%N →
  pad4 (1000 * y1 + 100 * y2 + 10 * y3 + y4)
  = [48 + y1; 48 + y2; 48 + y3; 48 + y4]%N.
Proof.
  intros H1 H2 H3 H4. unfold pad4.
  set (y := (1000 * y1 + 100 * y2 + 10 * y3 + y4)%N).
  assert (y / 1000 = y1)%N as ->.
  { symmetry. apply (N.div_unique y 1000 y1 (100 * y2 + 10 * y3 + y4)); lia. }
  assert (y / 100 = 10 * y1 + y2)%N as ->.
  { symmetry. apply (N.div_unique y 100 _ (10 * y3 + y4)); lia. }
  assert (y / 10 = 10 * (10 * y1 + y2) + y3)%N as ->.
  { symmetry. apply (N.div_unique y 10 _ y4); lia. }
  assert (∀ q r, (r < 10)%N → ((10 * q + r) `mod` 10 = r)%N) as Hmod.
  { intros q r Hr. symmetry. apply (N.mod_unique _ 10 q r); lia. }
  assert (y = 10 * (100 * y1 + 10 * y2 + y3) + y4)%N as -> by lia.
  rewrite !Hmod by done.
  by rewrite (N.mod_small y1 10 H1).
Qed.

Section DateToken.
Context {ext : Externals}.
(** The decimal digits include the ASCII ones. *)
Hypothesis ascii_decimal : ∀ v, (v < 10)%N → decimal_value (48 + v) = Some v.

Lemma re_d_digits {B} a b (k : N → list N → option B) rest :
  (a < 10)%N → (b < 10)%N → (1 ≤ 10 * a + b ≤ 31)%N →
  is_Some (k (10 * a + b)%N rest) →
  first_match re_d k ((48 + a) :: (48 + b) :: rest)%N = k (10 * a + b)%N rest.
Proof.
  intros Ha Hb Hd [r Hk]. unfold re_d, first_match, two_digits.
  destruct (decide (a = 3%N)) as [Ha3|Ha3].
  - rewrite (ascii_range_value 3 3 a), (ascii_range_value 0 1 b) by lia.
    simpl. by rewrite Hk.
  - rewrite (ascii_range_out 3 3 a) by lia. simpl.
    destruct (decide (a = 0%N)) as [Ha0|Ha0].
    + rewrite (ascii_range_out 1 2 a) by lia. simpl.
      rewrite (ascii_range_value 0 0 a), (ascii_range_value 1 9 b) by lia.
      simpl. by rewrite Hk.
    + rewrite (ascii_range_value 1 2 a), (ascii_decimal b) by lia.
      simpl. by rewrite Hk.
Qed.

Lemma re_m_digits {B} c e (k : N → list N → option B) rest :
  (c < 10)%N → (e < 10)%N → (1 ≤ 10 * c + e ≤ 12)%N →
  is_Some (k (10 * c + e)%N rest) →
  first_match re_m k ((48 + c) :: (48 + e) :: rest)%N = k (10 * c + e)%N rest.
Proof.
  intros Hc He Hm [r Hk]. unfold re_m, first_match, two_digits.
  destruct (decide (c = 1%N)) as [Hc1|Hc1].
  - rewrite (ascii_range_value 1 1 c), (ascii_range_value 0 2 e) by lia.
    simpl. by rewrite Hk.
  - rewrite (ascii_range_out 1 1 c) by lia. simpl.
    rewrite (ascii_range_value 0 0 c), (ascii_range_value 1 9 e) by lia.
    simpl. by rewrite Hk.
Qed.

(** A token of two digits, a full stop, two digits, a full stop and four
    digits that name a day of the calendar is read as that day. *)
Lemma strptime_digits a b c e y1 y2 y3 y4 :
  let d := {| year := 1000 * y1 + 100 * y2 + 10 * y3 + y4;
              month := 10 * c + e; day := 10 * a + b |}%N in
  Forall (λ v, (v < 10)%N) [a; b; c; e; y1; y2; y3; y4] →
  valid_date d = true →
  strptime ([48 + a; 48 + b; 46; 48 + c; 48 + e; 46;
             48 + y1; 48 + y2; 48 + y3; 48 + y4])%N = Ok d.
Proof.
  intros d Hdigits Hvalid.
  repeat match goal with H : Forall _ (_ :: _) |- _ => inversion_clear H end.
  assert (1 ≤ 10 * c + e ≤ 12 ∧ 1 ≤ 10 * a + b ≤ 31)%N as [Hm Hd].
  { unfold valid_date, d in Hvalid. simpl in Hvalid.
    repeat match type of Hvalid with
           | _ && _ = true => apply andb_prop in Hvalid as [Hvalid ?]
           end.
    repeat match goal with H : (_ <=? _)%N = true |- _ => apply N.leb_le in H end.
    split; [lia|]. split; [lia|].
    etrans; [eassumption|]. unfold days_in_month.
    repeat match goal with |- context [if ?x then _ else _] => destruct x end; lia. }
  assert (format_match ([48 + a; 48 + b; 46; 48 + c; 48 + e; 46;
                         48 + y1; 48 + y2; 48 + y3; 48 + y4])%N = Some (d, []))
    as Hmatch.
  { unfold format_match.
    set (k_m := λ (m : N) (s3 : list N),
           s4 ← literal 46 s3;
           '(y, rest) ← re_Y s4;
           Some ({| year := y; month := m; day := (10 * a + b)%N |}, rest)).
    assert (k_m (10 * c + e)%N [46; 48 + y1; 48 + y2; 48 + y3; 48 + y4]%N
            = Some (d, [])) as Hk_m.
    { unfold k_m, re_Y. cbn [literal N.eqb Pos.eqb mbind option_bind].
      by rewrite !ascii_decimal. }
    set (k_d := λ (d0 : N) (s1 : list N),
           s2 ← literal 46 s1;
           first_match re_m (λ (m : N) (s3 : list N),
             s4 ← literal 46 s3;
             '(y, rest) ← re_Y s4;
             Some ({| year := y; month := m; day := d0 |}, rest)) s2).
    assert (k_d (10 * a + b)%N
              [46; 48 + c; 48 + e; 46; 48 + y1; 48 + y2; 48 + y3; 48 + y4]%N
            = Some (d, [])) as Hk_d.
    { unfold k_d. cbn [literal N.eqb Pos.eqb mbind option_bind].
      fold k_m. rewrite re_m_digits; [done..|by rewrite Hk_m]. }
    rewrite re_d_digits; [done..|by rewrite Hk_d]. }
  unfold strptime. by rewrite Hmatch, Hvalid.
Qed.

End DateToken.

(** ** The two failures of [clean_filename], for any emoji removal

    Whatever [replace_emoji] is, as long as it leaves these emoji-free
    strings alone, a second pass changes [Really!] and a word of 101
    letters is cut inside the word. *)
Lemma clean_filename_twice_differs {ext : Externals} :
  replace_emoji (lit "Really!?") = lit "Really!?" →
  replace_emoji (lit "Really!") = lit "Really!" →
  clean_filename (lit "Really!?") = lit "Really!"
  ∧ clean_filename (clean_filename (lit "Really!?")) = lit "Really".
Proof.
  intros H1 H2.
  assert (clean_filename (lit "Really!?") = lit "Really!") as ->.
  { unfold clean_filename. by rewrite H1. }
  split; [done|]. unfold clean_filename. by rewrite H2.
Qed.

Lemma clean_filename_long_word {ext : Externals} :
  replace_emoji (replicate 101 97%N) = replicate 101 97%N →
  normalized_form (replicate 101 97%N) = replicate 101 97%N
  ∧ clean_filename (replicate 101 97%N) = replicate 100 97%N.
Proof.
  intros H1. unfold normalized_form, clean_filename. rewrite H1.
  split; by vm_compute.
Qed.

(** * Further properties *)

(** ** The collapse of newlines, as a whole *)

Lemma newline_runs_flush k c t :
  c ≠ LF →
  newline_runs_below_3 0 (flush_newlines k ++ c :: t) = newline_runs_below_3 0 t.
Proof.
  intros Hc. unfold flush_newlines.
  assert (newline_runs_below_3 2 (c :: t) = newline_runs_below_3 0 t
          ∧ newline_runs_below_3 1 (c :: t) = newline_runs_below_3 0 t
          ∧ newline_runs_below_3 0 (c :: t) = newline_runs_below_3 0 t)
    as (H2 & H1 & H0).
  { simpl. by destruct (N.eqb_spec c LF). }
  destruct (Nat.leb_spec 3 k); [exact H2|].
  destruct k as [|[|[|k]]]; [exact H0 | exact H1 | exact H2 | lia].
Qed.

Lemma sub_newline_runs_below_3 k s :
  newline_runs_below_3 0 (sub_newline_runs k s) = true.
Proof.
  revert k. induction s as [|c r IH]; intros k; simpl.
  - unfold flush_newlines. destruct (Nat.leb_spec 3 k); [done|].
    by destruct k as [|[|[|k]]]; [..|lia].
  - destruct (N.eqb_spec c LF); [apply IH|].
    by rewrite newline_runs_flush.
Qed.

Lemma sub_newline_runs_fixed k s :
  k ≤ 2 → newline_runs_below_3 k s = true →
  sub_newline_runs k s = replicate k LF ++ s.
Proof.
  revert k. induction s as [|c r IH]; intros k Hk; simpl.
  - intros _. unfold flush_newlines. destruct (Nat.leb_spec 3 k); [lia|].
    by rewrite app_nil_r.
  - destruct (N.eqb_spec c LF) as [->|Hc].
    + intros [Hlt%Nat.ltb_lt Hr]%andb_prop. rewrite IH by (done || lia).
      rewrite replicate_S_end, <- app_assoc. done.
    + intros Hr. rewrite (IH 0) by (done || lia). unfold flush_newlines.
      by destruct (Nat.leb_spec 3 k); [lia|].
Qed.

Lemma newline_runs_no_triple k s before after :
  newline_runs_below_3 k s = true → s ≠ before ++ [LF; LF; LF] ++ after.
Proof.
  revert k s. induction before as [|x before IH]; intros k s Hs ->.
  - simpl in Hs. rewrite !andb_true_iff, !Nat.ltb_lt in Hs. lia.
  - simpl in Hs. destruct (x =? LF)%N.
    + apply andb_prop in Hs as [_ Hs]. by eapply IH.
    + by eapply IH.
Qed.

Lemma sub_newline_runs_others k s :
  filter (λ c, c ≠ LF) (sub_newline_runs k s) = filter (λ c, c ≠ LF) s.
Proof.
  assert (∀ n, filter (λ c, c ≠ LF) (flush_newlines n) = []) as Hflush.
  { intros n. unfold flush_newlines. destruct (3 <=? n); [done|].
    induction n as [|n IHn]; [done|]. simpl.
    by rewrite filter_cons_False by (by intros []). }
  revert k. induction s as [|c r IH]; intros k; simpl; [apply Hflush|].
  destruct (N.eqb_spec c LF) as [->|Hc].
  - rewrite IH. by rewrite filter_cons_False by (by intros []).
  - rewrite filter_app, Hflush. simpl.
    rewrite !filter_cons_True by done. by rewrite IH.
Qed.

Lemma sub_newline_runs_length k s :
  length (sub_newline_runs k s) ≤ k + length s.
Proof.
  assert (∀ n, length (flush_newlines n) ≤ n) as Hflush.
  { intros n. unfold flush_newlines. destruct (Nat.leb_spec 3 n); simpl; [lia|].
    by rewrite length_replicate. }
  revert k. induction s as [|c r IH]; intros k; simpl.
  - specialize (Hflush k). lia.
  - destruct (c =? LF)%N.
    + specialize (IH (S k)). lia.
    + rewrite length_app. simpl. specialize (IH 0). specialize (Hflush k). lia.
Qed.

(** X1: the result of the collapse never holds three newlines in a row;
    collapsing it again changes nothing; the characters other than
    newlines are kept, in order; and the result is never longer than the
    text. *)
Theorem collapse_newlines_normal (s : str) :
  (∀ before after, collapse_newlines s ≠ before ++ [LF; LF; LF] ++ after)
  ∧ collapse_newlines (collapse_newlines s) = collapse_newlines s
  ∧ filter (λ c, c ≠ LF) (collapse_newlines s) = filter (λ c, c ≠ LF) s
  ∧ length (collapse_newlines s) ≤ length s.
Proof.
  unfold collapse_newlines.
  pose proof (sub_newline_runs_below_3 0 s) as Hruns.
  split; [|split; [|split]].
  - intros before after. by eapply newline_runs_no_triple.
  - by rewrite (sub_newline_runs_fixed 0 _ (Nat.le_0_l 2) Hruns).
  - apply sub_newline_runs_others.
  - apply (sub_newline_runs_length 0).
Qed.

(** ** [extract_first_meaningful_line] *)

Lemma is_linebreak_isspace c : is_linebreak c = true → isspace c = true.
Proof.
  unfold is_linebreak. intros Hc%in_class_spec.
  repeat (apply elem_of_cons in Hc as [->|Hc]; [done|]).
  by apply elem_of_nil in Hc.
Qed.

Lemma strip_nil_iff s : strip s = [] ↔ Forall (λ c, isspace c = true) s.
Proof.
  split; [|apply strip_whitespace].
  intros Hs. destruct (strip_spec s) as (k1 & k2 & Heq & Hk1 & Hk2 & _).
  rewrite Heq, Hs. by apply Forall_app.
Qed.

Lemma strip_Forall (P : N → Prop) s : Forall P s → Forall P (strip s).
Proof.
  intros Hs. destruct (strip_infix s) as (k1 & k2 & Heq). rewrite Heq in Hs.
  apply Forall_app in Hs as [_ Hs]. by apply Forall_app in Hs as [Hs _].
Qed.

Lemma splitlines_go_concat after_cr cur s :
  concat (splitlines_go after_cr cur s)
  = cur ++ filter (λ c, is_linebreak c = false) s.
Proof.
  revert after_cr cur. induction s as [|c r IH]; intros after_cr cur; simpl.
  - rewrite app_nil_r. destruct cur; simpl; by rewrite ?app_nil_r.
  - destruct (after_cr && (c =? LF)%N) eqn:Hskip.
    + apply andb_prop in Hskip as [_ ->%N.eqb_eq].
      rewrite IH. by rewrite filter_cons_False by done.
    + destruct (is_linebreak c) eqn:Hc; simpl.
      * rewrite IH. simpl. by rewrite filter_cons_False by (by rewrite Hc).
      * rewrite IH, <- app_assoc. simpl. by rewrite filter_cons_True.
Qed.

Lemma splitlines_go_no_break after_cr cur s :
  Forall (λ c, is_linebreak c = false) cur →
  Forall (Forall (λ c, is_linebreak c = false)) (splitlines_go after_cr cur s).
Proof.
  revert after_cr cur. induction s as [|c r IH]; intros after_cr cur Hcur; simpl.
  - destruct cur; simpl; [constructor | by constructor].
  - destruct (after_cr && (c =? LF)%N); [by apply IH|].
    destruct (is_linebreak c) eqn:Hc.
    + constructor; [done|]. by apply IH.
    + apply IH. apply Forall_app. by repeat constructor.
Qed.

Lemma find_first {A} (p : A → bool) l x :
  List.find p l = Some x →
  ∃ before after,
    l = before ++ x :: after ∧ p x = true ∧ Forall (λ y, p y = false) before.
Proof.
  induction l as [|y l IH]; [done|]. simpl. destruct (p y) eqn:Hy.
  - intros [= <-]. by exists [], l.
  - intros (before & after & -> & Hx & Hb)%IH.
    exists (y :: before), after. by repeat constructor.
Qed.

Lemma find_none_all {A} (p : A → bool) l :
  List.find p l = None → Forall (λ y, p y = false) l.
Proof.
  induction l as [|y l IH]; [by constructor|]. simpl. destruct (p y) eqn:Hy; [done|].
  intros ?. constructor; auto.
Qed.

Lemma nonblank_lines_elem text line :
  line ∈ nonblank_lines text →
  line ≠ [] ∧ strip line = line ∧ Forall (λ c, is_linebreak c = false) line.
Proof.
  unfold nonblank_lines. rewrite list_elem_of_In, filter_In, <- list_elem_of_In.
  intros [(raw & -> & Hraw)%list_elem_of_fmap Hne].
  apply negb_true_iff, bool_decide_eq_false in Hne.
  split; [done|]. split.
  - destruct (strip_spec raw) as (_ & _ & _ & _ & _ & Hh & Hl). by apply strip_id.
  - apply strip_Forall.
    pose proof (splitlines_go_no_break false [] text (List.Forall_nil _)) as Hall.
    rewrite Forall_forall in Hall. by apply Hall.
Qed.

Lemma nonblank_lines_nil text :
  nonblank_lines text = [] ↔ Forall (λ c, isspace c = true) text.
Proof.
  unfold nonblank_lines. split.
  - intros Hnil.
    assert (Forall (Forall (λ c, isspace c = true)) (splitlines text)) as Hall.
    { apply Forall_forall. intros raw Hraw. apply strip_nil_iff.
      destruct (strip raw) as [|c l] eqn:E; [done|]. exfalso.
      assert (In (c :: l) []) as [].
      rewrite <- Hnil. apply filter_In. split; [|done].
      apply list_elem_of_In, list_elem_of_fmap. by exists raw. }
    assert (Forall (λ c, isspace c = true) (concat (splitlines text))) as Hcat.
    { clear Hnil. induction Hall; simpl; [done | by apply Forall_app]. }
    unfold splitlines in Hcat. rewrite splitlines_go_concat in Hcat. simpl in Hcat.
    apply Forall_forall. intros c Hc.
    destruct (is_linebreak c) eqn:Hbreak; [by apply is_linebreak_isspace|].
    rewrite Forall_forall in Hcat. apply Hcat. by apply list_elem_of_filter.
  - intros Hall.
    assert (Forall (Forall (λ c, isspace c = true)) (splitlines text)) as Hlines.
    { apply Forall_forall. intros raw Hraw. apply Forall_forall. intros c Hc.
      rewrite Forall_forall in Hall. apply Hall.
      assert (c ∈ concat (splitlines text)) as Hin.
      { apply list_elem_of_In, in_concat. exists raw.
        by rewrite <- !list_elem_of_In. }
      unfold splitlines in Hin. rewrite splitlines_go_concat in Hin.
      simpl in Hin. by apply list_elem_of_filter in Hin as [_ ?]. }
    induction Hlines as [|raw rest Hraw _ IH]; [done|]. simpl.
    by rewrite (strip_whitespace _ Hraw).
Qed.

(** X2: [extract_first_meaningful_line] returns [None] exactly for a text
    made of whitespace only (the empty text included). *)
Theorem no_meaningful_line_iff_blank (text : str) :
  extract_first_meaningful_line text = None
  ↔ Forall (λ c, isspace c = true) text.
Proof.
  rewrite <- nonblank_lines_nil. unfold extract_first_meaningful_line.
  fold (nonblank_lines text). split.
  - destruct (List.find _ _); [done|]. by destruct (nonblank_lines text).
  - by intros ->.
Qed.

(** X3: the line [extract_first_meaningful_line] returns is one of the
    trimmed, non-empty lines of the text: it is not empty, has no
    whitespace at either end and no line boundary inside.  It is the first
    such line of 10 characters or more; it is shorter than 10 only when all
    of them are, and then it is the very first. *)
Theorem meaningful_line_choice (text line : str) :
  extract_first_meaningful_line text = Some line →
  ∃ before after,
    nonblank_lines text = before ++ line :: after
    ∧ Forall (λ l, length l < 10) before
    ∧ (length line < 10 → before = [] ∧ Forall (λ l, length l < 10) after)
    ∧ line ≠ [] ∧ strip line = line
    ∧ Forall (λ c, is_linebreak c = false) line.
Proof.
  unfold extract_first_meaningful_line. fold (nonblank_lines text).
  destruct (List.find _ _) as [found|] eqn:Hfind.
  - intros [= ->]. apply find_first in Hfind as (before & after & Heq & Hlen & Hb).
    apply Nat.leb_le in Hlen. exists before, after. split; [done|]. split.
    { eapply Forall_impl; [exact Hb|]. intros l Hl. by apply Nat.leb_gt in Hl. }
    split; [lia|]. apply (nonblank_lines_elem text). rewrite Heq. set_solver.
  - intros Hhead. apply find_none_all in Hfind.
    destruct (nonblank_lines text) as [|first rest] eqn:Heq; [done|].
    injection Hhead as ->. exists [], rest. split; [done|]. split; [done|].
    split.
    { intros _. split; [done|]. apply Forall_cons in Hfind as [_ Hrest].
      eapply Forall_impl; [exact Hrest|]. intros l Hl. by apply Nat.leb_gt in Hl. }
    apply (nonblank_lines_elem text). rewrite Heq. set_solver.
Qed.

Lemma meaningful_line_choice_witness :
  ∃ before after,
    nonblank_lines (lit "Hi!" ++ [LF] ++ lit "  This is the title  " ++ [CR; LF] ++ lit "more")
      = before ++ lit "This is the title" :: after
    ∧ Forall (λ l, length l < 10) before.
Proof.
  destruct (meaningful_line_choice
              (lit "Hi!" ++ [LF] ++ lit "  This is the title  " ++ [CR; LF] ++ lit "more")
              (lit "This is the title") eq_refl)
    as (before & after & Heq & Hb & _).
  by exists before, after.
Defined.

(** ** [convert_tag_to_md]: text without markup, and lists *)

Lemma child_part_plain n : plain n = true → child_part n = all_strings n.
Proof.
  induction n as [s|cls s|name attrs ch IH] using node_ind'; [done|done|].
  intros [Hname%negb_true_iff Hch]%andb_prop.
  rewrite child_part_Tag, tag_part_fallback by done.
  unfold all_strings. simpl. f_equal.
  induction IH as [|x r Hx _ IHr]; [done|]. simpl in *.
  apply andb_prop in Hch as [Hx' Hr]. by rewrite Hx, IHr.
Qed.

Lemma strings_of_text_only keep n :
  keep None = true → text_only n = true → strings_of keep n = all_strings n.
Proof.
  intros Hkeep.
  induction n as [s|cls s|name attrs ch IH] using node_ind'; simpl;
    [by rewrite Hkeep|done|].
  intros Hch. unfold all_strings. simpl. f_equal.
  induction IH as [|x r Hx _ IHr]; [done|]. simpl in *.
  apply andb_prop in Hch as [Hx' Hr]. by rewrite Hx, IHr.
Qed.

Lemma interesting_text name :
  name_in string_containers.*1 name = false →
  interesting_string_types name None = true.
Proof.
  unfold name_in, interesting_string_types, string_containers.
  cbn [fmap list_fmap existsb List.find fst]. intros Hname.
  repeat match type of Hname with
         | _ || _ = false => apply orb_false_elim in Hname as [-> Hname]
         end.
  done.
Qed.

(** X4: a tag under which every tag has a name without a branch of its own
    ([span], [u], ...) converts to the strings below it, unchanged and in
    order: no character is added, dropped or trimmed.  These are the
    strings of every class, so a comment is converted with the text; when
    all of them are text, and the tag is not a string container, the
    conversion is [get_text] of the tag. *)
Theorem convert_plain_is_text (name : str) (attrs : gmap (list N) (list N))
    (ch : list node) :
  forallb plain ch = true →
  convert_tag_to_md (Some (Tag name attrs ch)) = all_strings (Tag name attrs ch)
  ∧ (forallb text_only ch = true →
     name_in string_containers.*1 name = false →
     convert_tag_to_md (Some (Tag name attrs ch)) = get_text (Tag name attrs ch)).
Proof.
  intros Hch.
  assert (convert_tag_to_md (Some (Tag name attrs ch))
          = all_strings (Tag name attrs ch)) as Hall.
  { unfold all_strings. simpl. f_equal.
    induction ch as [|x r IH]; [done|]. simpl in *.
    apply andb_prop in Hch as [Hx Hr]. by rewrite (child_part_plain x Hx), IH. }
  split; [done|]. intros Htext Hname. rewrite Hall. symmetry.
  apply (strings_of_text_only _ (Tag name attrs ch)); [|done].
  by apply interesting_text.
Qed.

Lemma convert_plain_is_text_witness :
  let body := Tag (lit "div") ∅
                [NavigableString (lit " Hello, ");
                 Tag (lit "span") ∅
                   [SubclassString Comment (lit "note"); NavigableString (lit "plain ")];
                 NavigableString (lit "world ")] in
  convert_tag_to_md (Some body) = lit " Hello, noteplain world "
  ∧ get_text body = lit " Hello, plain world ".
Proof.
  intros body. split; [|reflexivity].
  apply (convert_plain_is_text (lit "div") ∅ (children body)).
  reflexivity.
Defined.

Lemma find_li_filter name attrs ch :
  find_li (Tag name attrs (List.filter is_li ch)) = find_li (Tag name attrs ch).
Proof.
  unfold find_li. simpl. induction ch as [|x r IH]; [done|]. simpl.
  destruct (is_li x) eqn:Hx; [|done]. simpl. by rewrite Hx, IH.
Qed.

(** X5: a [ul] or [ol] child contributes one line per direct [li] child and
    nothing else: the line is [* ] or the item's number (counted from 1
    over the [li] children only), a full stop and a space, followed by the
    item's trimmed conversion and a newline.  Text and other tags directly
    under the list are dropped: removing them leaves the result as it
    is. *)
Theorem list_items_only (attrs : gmap (list N) (list N)) (ch : list node) :
  child_part (Tag (lit "ul") attrs ch)
    = concat ((λ item, lit "* " ++ strip (convert_tag_to_md (Some item)) ++ [LF])
                <$> List.filter is_li ch)
  ∧ child_part (Tag (lit "ol") attrs ch)
    = concat (imap (λ i item,
                 decimal (S i) ++ lit ". "
                 ++ strip (convert_tag_to_md (Some item)) ++ [LF])
                (List.filter is_li ch))
  ∧ child_part (Tag (lit "ul") attrs ch)
    = child_part (Tag (lit "ul") attrs (List.filter is_li ch))
  ∧ child_part (Tag (lit "ol") attrs ch)
    = child_part (Tag (lit "ol") attrs (List.filter is_li ch)).
Proof.
  assert (child_part (Tag (lit "ul") attrs ch)
          = concat ((λ item, lit "* " ++ strip (convert_tag_to_md (Some item)) ++ [LF])
                      <$> find_li (Tag (lit "ul") attrs ch))) as Hul.
  { rewrite child_part_Tag. unfold tag_part. simpl name_in. cbv iota.
    by rewrite <- list_fmap_compose. }
  assert (child_part (Tag (lit "ol") attrs ch)
          = concat (imap (λ i item,
                       decimal (S i) ++ lit ". "
                       ++ strip (convert_tag_to_md (Some item)) ++ [LF])
                      (find_li (Tag (lit "ol") attrs ch)))) as Hol.
  { rewrite child_part_Tag. unfold tag_part. simpl name_in. cbv iota.
    by rewrite imap_fmap. }
  split; [exact Hul|]. split; [exact Hol|]. split.
  - rewrite child_part_Tag, (child_part_Tag _ _ (List.filter is_li ch)).
    by rewrite find_li_filter.
  - rewrite child_part_Tag, (child_part_Tag _ _ (List.filter is_li ch)).
    by rewrite find_li_filter.
Qed.

(** ** [clean_filename]: what it keeps and what it leaves alone *)

Lemma filter_sublist_mono {A} (P : A → Prop) `{!∀ x, Decision (P x)} (l1 l2 : list A) :
  l1 `sublist_of` l2 → filter P l1 `sublist_of` filter P l2.
Proof.
  induction 1 as [|x l1 l2 _ IH|x l1 l2 _ IH]; [done|..].
  - rewrite !filter_cons. destruct (decide (P x)); [by constructor | done].
  - rewrite filter_cons. destruct (decide (P x)); [by constructor | done].
Qed.

Lemma prefix_sublist_of {A} (l k : list A) : l `sublist_of` l ++ k.
Proof. by apply sublist_inserts_r. Qed.

Lemma sub_special_visible text :
  filter (λ c, isspace c = false) (sub_special text) `sublist_of` text.
Proof.
  unfold sub_special. induction text as [|c r IH]; [done|]. simpl.
  destruct (is_special c).
  - rewrite filter_cons_False by (by rewrite isspace_SP). by constructor.
  - rewrite filter_cons. destruct (decide (isspace c = false)); by constructor.
Qed.

Lemma sub_space_runs_visible b s :
  filter (λ c, isspace c = false) (sub_space_runs b s)
  = filter (λ c, isspace c = false) s.
Proof.
  revert b. induction s as [|c r IH]; intros b; [done|]. simpl.
  destruct (isspace c) eqn:Hc.
  - rewrite (filter_cons_False _ c) by (by rewrite Hc).
    destruct b; [apply IH|].
    rewrite filter_cons_False by (by rewrite isspace_SP). apply IH.
  - rewrite !filter_cons_True by done. by rewrite IH.
Qed.

Lemma rstrip_class_length p s : length (rstrip_class p s) ≤ length s.
Proof.
  destruct (rstrip_class_spec p s) as (k & Hk & _).
  rewrite Hk at 2. rewrite length_app. lia.
Qed.

Lemma rstrip_class_shorter p s c :
  last s = Some c → p c = true → length (rstrip_class p s) < length s.
Proof.
  intros Hlast Hc. destruct (rstrip_class_spec p s) as (k & Hk & _ & Hl).
  destruct k as [|x k].
  - rewrite app_nil_r in Hk. rewrite <- Hk in Hl. rewrite (Hl c Hlast) in Hc. done.
  - rewrite Hk at 2. rewrite length_app. simpl. lia.
Qed.

Lemma sub_space_runs_length b s : length (sub_space_runs b s) ≤ length s.
Proof.
  revert b. induction s as [|c r IH]; intros b; [done|]. simpl.
  destruct (isspace c); [destruct b|]; simpl;
    [specialize (IH true) | specialize (IH true) | specialize (IH false)]; lia.
Qed.

Lemma strip_length s : length (strip s) ≤ length s.
Proof.
  destruct (strip_infix s) as (k1 & k2 & Hk). rewrite Hk at 2.
  rewrite !length_app. lia.
Qed.

Section CleanFilenameMore.
Context {ext : Externals}.

Lemma clean_filename_prefix text : ∃ k, normalized_form text = clean_filename text ++ k.
Proof.
  rewrite clean_filename_eq. destruct (100 <? _).
  - destruct (rsplit1_head_prefix SP (take 100 (normalized_form text))) as (k & Hk).
    exists (k ++ drop 100 (normalized_form text)).
    by rewrite app_assoc, <- Hk, take_drop.
  - exists []. by rewrite app_nil_r.
Qed.

(** X6: [clean_filename] invents no character: apart from the spaces it
    puts in, the characters of its result are characters of the text left
    by the emoji removal, in their order. *)
Theorem clean_filename_keeps_order (text : str) :
  filter (λ c, isspace c = false) (clean_filename text)
    `sublist_of` replace_emoji text.
Proof.
  destruct (clean_filename_prefix text) as (k & Hk).
  etrans; [apply filter_sublist_mono, (prefix_sublist_of _ k)|].
  rewrite <- Hk. unfold normalized_form.
  destruct (strip_infix (sub_space_runs false
              (sub_trailing_punct (sub_special (replace_emoji text)))))
    as (k1 & k2 & Hstrip).
  etrans; [apply filter_sublist_mono, (sublist_inserts_l k1),
           (prefix_sublist_of _ k2)|].
  rewrite <- Hstrip, sub_space_runs_visible.
  rewrite (sub_trailing_punct_no_newline _ (sub_special_Forall _)).
  destruct (rstrip_class_spec is_punct (sub_special (replace_emoji text)))
    as (k3 & Hk3 & _).
  etrans; [apply filter_sublist_mono, (prefix_sublist_of _ k3)|].
  rewrite <- Hk3. apply sub_special_visible.
Qed.

(** X7: for a string the emoji removal leaves alone, [clean_filename]
    returns the string itself exactly when the string is already a clean
    stem: none of the characters of line 13, single spaces as its only
    whitespace and none at either end, at most 100 characters, and no
    punctuation mark of line 16 at the end. *)
Theorem clean_filename_fixed_points (s : str) :
  replace_emoji s = s →
  (clean_filename s = s
   ↔ tidy s ∧ length s ≤ 100 ∧ ends_with_punct s = false).
Proof.
  intros Hemoji. split.
  - intros Hfix.
    assert (tidy s) as Htidy by (rewrite <- Hfix; apply clean_filename_tidy).
    assert (length s ≤ 100) as Hlen by (rewrite <- Hfix; apply clean_filename_length).
    split; [done|]. split; [done|].
    unfold ends_with_punct. destruct (last s) as [c|] eqn:Hlast; [|done].
    destruct (is_punct c) eqn:Hc; [|done]. exfalso.
    destruct (clean_filename_prefix s) as (k & Hk).
    assert (length (clean_filename s) ≤ length (normalized_form s)) as Hle
      by (rewrite Hk, length_app; lia).
    assert (length (normalized_form s) < length s) as Hlt; [|rewrite Hfix in Hle; lia].
    unfold normalized_form. rewrite Hemoji.
    destruct Htidy as (Hsp & _).
    assert (sub_special s = s) as ->.
    { unfold sub_special. rewrite <- (list_fmap_id s) at 2.
      apply list_fmap_ext. intros i x Hx. simpl.
      by rewrite (proj1 (Forall_lookup _ _) Hsp i x Hx). }
    rewrite (sub_trailing_punct_no_newline _ Hsp).
    pose proof (rstrip_class_shorter is_punct s c Hlast Hc).
    pose proof (sub_space_runs_length false (rstrip_class is_punct s)).
    pose proof (strip_length (sub_space_runs false (rstrip_class is_punct s))).
    lia.
  - intros (Htidy & Hlen & Hpunct).
    assert (normalized_form s = s) as Hfix.
    { unfold normalized_form. rewrite Hemoji. apply tidy_fixed; [done..|].
      intros c Hc. unfold ends_with_punct in Hpunct. by rewrite Hc in Hpunct. }
    rewrite clean_filename_eq, Hfix.
    by destruct (Nat.ltb_spec 100 (length s)); [lia|].
Qed.

End CleanFilenameMore.

Lemma clean_filename_fixed_points_witness :
  clean_filename (ext := sample_externals) (lit "Notes on UX design, part 2")
    = lit "Notes on UX design, part 2"
  ↔ tidy (lit "Notes on UX design, part 2")
    ∧ length (lit "Notes on UX design, part 2") ≤ 100
    ∧ ends_with_punct (lit "Notes on UX design, part 2") = false.
Proof.
  apply (clean_filename_fixed_points (ext := sample_externals)
           (lit "Notes on UX design, part 2")).
  reflexivity.
Defined.

(** ** [get_tags_from_content] *)

Lemma is_prefix_spec p s : is_prefix p s = true ↔ ∃ post, s = p ++ post.
Proof.
  revert s. induction p as [|a p IH]; intros s; simpl.
  - split; [by exists s | done].
  - destruct s as [|b s]; [split; [done | by intros (? & ?)]|].
    rewrite andb_true_iff, N.eqb_eq, IH. split.
    + intros (-> & post & ->). by exists post.
    + intros (post & [= -> ->]). split; [done | by exists post].
Qed.

(** [contains] is Python's [sub in s]: [sub] is a contiguous part of [s]. *)
Lemma contains_spec sub s :
  contains sub s = true ↔ ∃ pre post, s = pre ++ sub ++ post.
Proof.
  induction s as [|c r IH]; simpl.
  - rewrite orb_false_r, is_prefix_spec. split.
    + intros (post & ->). by exists [], post.
    + intros (pre & post & Heq). symmetry in Heq.
      apply app_eq_nil in Heq as [-> Heq]. by exists post.
  - rewrite orb_true_iff, is_prefix_spec, IH. split.
    + intros [(post & ->)|(pre & post & ->)]; [by exists [], post|].
      by exists (c :: pre), post.
    + intros ([|x pre] & post & Heq).
      * left. by exists post.
      * right. injection Heq as -> ->. by exists pre, post.
Qed.

Lemma any_term_spec terms search_text :
  any_term terms search_text = true
  ↔ ∃ term, term ∈ lit <$> terms ∧ ∃ pre post, search_text = pre ++ term ++ post.
Proof.
  unfold any_term. rewrite existsb_exists. split.
  - intros (term & Hin & Hc%contains_spec). exists (lit term). split; [|done].
    apply list_elem_of_fmap. exists term. split; [done | by apply list_elem_of_In].
  - intros (t & (term & -> & Hin)%list_elem_of_fmap & Hc%contains_spec).
    exists term. split; [by apply list_elem_of_In | done].
Qed.

(** X8: the tags are drawn from [design], [management], [product], in this
    (alphabetical) order and without repetition; each is present exactly
    when one of its keywords is a contiguous part of the lower-cased text,
    a space and the author. *)
Theorem tags_by_keyword {ext : Externals} (text author : str) :
  let search_text := lower (text ++ lit " " ++ author) in
  let tags := get_tags_from_content text author in
  tags `sublist_of` [lit "design"; lit "management"; lit "product"]
  ∧ (lit "design" ∈ tags
     ↔ ∃ term, term ∈ [lit "design"; lit "дизайн"; lit "ux"; lit "ui"]
               ∧ ∃ pre post, search_text = pre ++ term ++ post)
  ∧ (lit "management" ∈ tags
     ↔ ∃ term, term ∈ [lit "team"; lit "тимлид"; lit "команд"]
               ∧ ∃ pre post, search_text = pre ++ term ++ post)
  ∧ (lit "product" ∈ tags
     ↔ ∃ term, term ∈ [lit "product"; lit "продакт"; lit "продукт"]
               ∧ ∃ pre post, search_text = pre ++ term ++ post).
Proof.
  intros search_text tags.
  pose proof (any_term_spec ["design"; "дизайн"; "ux"; "ui"]%string search_text) as Hd.
  pose proof (any_term_spec ["team"; "тимлид"; "команд"]%string search_text) as Hm.
  pose proof (any_term_spec ["product"; "продакт"; "продукт"]%string search_text) as Hp.
  simpl fmap in Hd, Hm, Hp. rewrite <- Hd, <- Hm, <- Hp. clear Hd Hm Hp.
  unfold tags, get_tags_from_content. fold search_text.
  destruct (any_term ["design"; _; _; _]%string search_text),
           (any_term ["team"; _; _]%string search_text),
           (any_term ["product"; _; _]%string search_text);
    (split; [simpl; repeat first [apply sublist_nil | apply sublist_skip | apply sublist_cons]|]);
    repeat split; intros Hin; try done;
    try (apply (bool_decide_unpack _); by vm_compute);
    by (apply (bool_decide_pack _) in Hin; vm_compute in Hin).
Qed.

(** ** Dates: what is accepted *)

Lemma split_go_first cur token rest :
  Forall (λ c, isspace c = false) token → cur ++ token ≠ [] →
  (rest = [] ∨ ∃ c r, rest = c :: r ∧ isspace c = true) →
  head (split_go cur (token ++ rest)) = Some (cur ++ token).
Proof.
  intros Htoken. revert cur. induction Htoken as [|x t Hx _ IH]; intros cur Hne Hrest.
  - rewrite app_nil_r in *. simpl.
    destruct Hrest as [->|(c & r & -> & Hc)]; simpl; [by destruct cur|].
    rewrite Hc. by destruct cur.
  - simpl. rewrite Hx, IH; [by rewrite <- app_assoc | by destruct cur | done].
Qed.

Lemma first_match_Some {A B} (alts : list (list N → option (A * list N)))
    (k : A → list N → option B) s b :
  first_match alts k s = Some b →
  ∃ alt a r, alt ∈ alts ∧ alt s = Some (a, r) ∧ k a r = Some b.
Proof.
  induction alts as [|alt rest IH]; [done|]. simpl.
  destruct (alt s ≫= _) as [b'|] eqn:E.
  - intros [= ->]. destruct (alt s) as [[a r]|] eqn:Ealt; [|done].
    exists alt, a, r. split; [apply list_elem_of_here | done].
  - intros (alt' & a & r & Hin & Halt & Hk)%IH.
    exists alt', a, r. split; [by apply list_elem_of_further | done].
Qed.

Lemma literal_Some c s r : literal c s = Some r → s = [c] ++ r.
Proof.
  destruct s as [|c' s]; [done|]. simpl.
  destruct (N.eqb_spec c' c) as [->|]; [|done]. by intros [= <-].
Qed.

Lemma split_go_nonspace cur s :
  Forall (λ c, isspace c = false) cur →
  Forall (Forall (λ c, isspace c = false)) (split_go cur s).
Proof.
  revert cur. induction s as [|c r IH]; intros cur Hcur; simpl.
  - destruct cur; [apply List.Forall_nil|].
    apply List.Forall_cons; [done | apply List.Forall_nil].
  - destruct (isspace c) eqn:Hc.
    + destruct cur; [by apply IH|].
      apply List.Forall_cons; [done | by apply IH].
    + apply IH. apply Forall_app. split; [done|].
      apply List.Forall_cons; [done | apply List.Forall_nil].
Qed.

Lemma digit_in v : (v < 10)%N → In v [0; 1; 2; 3; 4; 5; 6; 7; 8; 9]%N.
Proof.
  intros Hv. apply list_elem_of_In. revert v Hv. apply digit_cases.
  repeat constructor; set_solver.
Qed.

(** A year of four digits is written with these digits. *)
Lemma decimal_N_digits y1 y2 y3 y4 :
  (1 ≤ y1)%N → (y1 < 10)%N → (y2 < 10)%N → (y3 < 10)%N → (y4 < 10)%N →
  decimal_N (1000 * y1 + 100 * y2 + 10 * y3 + y4)
  = [48 + y1; 48 + y2; 48 + y3; 48 + y4]%N.
Proof.
  intros H0 H1 H2 H3 H4.
  pose (digits := [0; 1; 2; 3; 4; 5; 6; 7; 8; 9]%N).
  assert (forallb (λ a, forallb (λ b, forallb (λ c, forallb (λ d,
            (a =? 0)%N
            || bool_decide (decimal_N (1000 * a + 100 * b + 10 * c + d)
                            = [48 + a; 48 + b; 48 + c; 48 + d]%N))
            digits) digits) digits) digits = true) as Hall
    by (vm_compute; reflexivity).
  rewrite forallb_forall in Hall. specialize (Hall y1 (digit_in _ H1)).
  rewrite forallb_forall in Hall. specialize (Hall y2 (digit_in _ H2)).
  rewrite forallb_forall in Hall. specialize (Hall y3 (digit_in _ H3)).
  rewrite forallb_forall in Hall. specialize (Hall y4 (digit_in _ H4)).
  apply orb_prop in Hall as [Hz%N.eqb_eq|Hall]; [lia|].
  by apply bool_decide_eq_true in Hall.
Qed.

Lemma two_digit_split n :
  (n < 100)%N → ∃ a b, (a < 10)%N ∧ (b < 10)%N ∧ n = (10 * a + b)%N.
Proof.
  intros Hn. exists (n / 10)%N, (n mod 10)%N. split; [|split].
  - apply N.Div0.div_lt_upper_bound; lia.
  - by apply N.mod_upper_bound.
  - by apply N.div_mod.
Qed.

Lemma four_digit_split y :
  (y < 10000)%N →
  ∃ y1 y2 y3 y4,
    (y1 < 10)%N ∧ (y2 < 10)%N ∧ (y3 < 10)%N ∧ (y4 < 10)%N
    ∧ y = (1000 * y1 + 100 * y2 + 10 * y3 + y4)%N.
Proof.
  intros Hy.
  assert (y / 100 < 100)%N as Hq by (apply N.Div0.div_lt_upper_bound; lia).
  assert (y mod 100 < 100)%N as Hr by (by apply N.mod_upper_bound).
  pose proof (N.div_mod y 100 ltac:(done)) as Hsplit.
  destruct (two_digit_split _ Hq) as (y1 & y2 & ? & ? & Hq').
  destruct (two_digit_split _ Hr) as (y3 & y4 & ? & ? & Hr').
  exists y1, y2, y3, y4. repeat split; try done.
  rewrite Hq', Hr' in Hsplit. lia.
Qed.

Lemma decimal_N_four y : (1000 ≤ y ≤ 9999)%N → decimal_N y = pad4 y.
Proof.
  intros [Hlo Hhi].
  destruct (four_digit_split y) as (y1 & y2 & y3 & y4 & ? & ? & ? & ? & ->); [lia|].
  rewrite pad4_digits by done. apply decimal_N_digits; try done. lia.
Qed.


Lemma valid_date_ranges d :
  valid_date d = true →
  (1 ≤ year d ≤ 9999)%N ∧ (1 ≤ month d ≤ 12)%N
  ∧ (1 ≤ day d ≤ days_in_month (year d) (month d))%N
  ∧ (day d ≤ 31)%N.
Proof.
  unfold valid_date. intros Hvalid.
  repeat match type of Hvalid with
         | _ && _ = true => apply andb_prop in Hvalid as [Hvalid ?]
         end.
  repeat match goal with H : (_ <=? _)%N = true |- _ => apply N.leb_le in H end.
  repeat split; try lia.
  etrans; [eassumption|]. unfold days_in_month.
  repeat match goal with |- context [if ?x then _ else _] => destruct x end; lia.
Qed.

Lemma pad2_nonspace n : Forall (λ c, isspace c = false) (pad2 n).
Proof.
  unfold pad2. repeat constructor; apply isspace_digit; by apply N.mod_upper_bound.
Qed.

Lemma pad4_nonspace n : Forall (λ c, isspace c = false) (pad4 n).
Proof.
  unfold pad4. repeat constructor; apply isspace_digit; by apply N.mod_upper_bound.
Qed.

Lemma numerals_nonspace n ds :
  ds ∈ numerals n → Forall (λ c, isspace c = false) ds.
Proof.
  unfold numerals. intros [->|Hin]%elem_of_cons; [apply pad2_nonspace|].
  destruct (N.ltb_spec n 10) as [Hn|Hn]; [|by apply elem_of_nil in Hin].
  apply list_elem_of_singleton in Hin as ->. repeat constructor.
  by apply isspace_digit.
Qed.

Section DateReading.
Context {ext : Externals}.
(** The decimal digits include the ASCII ones. *)
Hypothesis ascii_decimal : ∀ v, (v < 10)%N → decimal_value (48 + v) = Some v.

Lemma ascii_range_decimal (lo hi : N) c v :
  (hi ≤ 9)%N → ascii_range lo hi c = Some v → decimal_value c = Some v.
Proof.
  intros Hhi. unfold ascii_range.
  destruct (N.leb_spec (48 + lo) c); [|done].
  destruct (N.leb_spec c (48 + hi)); [|done].
  simpl. intros [= <-].
  replace c with (48 + (c - 48))%N at 1 by lia. apply ascii_decimal. lia.
Qed.

Lemma one_digit_reads (p : N → option N) s v r :
  (∀ c w, p c = Some w → decimal_value c = Some w) →
  one_digit p s = Some (v, r) →
  ∃ c, s = [c] ++ r ∧ decimal_reading [c] = Some v.
Proof.
  intros Hp. destruct s as [|c s]; [done|]. simpl.
  destruct (p c) as [w|] eqn:E; [|done]. simpl. intros [= <- <-].
  exists c. split; [done|]. unfold decimal_reading. simpl.
  by rewrite (Hp _ _ E).
Qed.

Lemma two_digits_reads (p1 p2 : N → option N) s v r :
  (∀ c w, p1 c = Some w → decimal_value c = Some w) →
  (∀ c w, p2 c = Some w → decimal_value c = Some w) →
  two_digits p1 p2 s = Some (v, r) →
  ∃ c1 c2, s = [c1; c2] ++ r ∧ decimal_reading [c1; c2] = Some v.
Proof.
  intros Hp1 Hp2. destruct s as [|c1 [|c2 s]]; [done..|]. simpl.
  destruct (p1 c1) as [w1|] eqn:E1; [|done]. simpl.
  destruct (p2 c2) as [w2|] eqn:E2; [|done]. simpl. intros [= <- <-].
  exists c1, c2. split; [done|]. unfold decimal_reading. simpl.
  rewrite (Hp1 _ _ E1). simpl. by rewrite (Hp2 _ _ E2).
Qed.

Lemma blank_digit_reads (p : N → option N) s v r :
  (∀ c w, p c = Some w → decimal_value c = Some w) →
  blank_digit p s = Some (v, r) →
  ∃ c, s = [SP; c] ++ r ∧ decimal_reading [c] = Some v.
Proof.
  intros Hp. destruct s as [|c1 s]; [done|]. simpl.
  destruct (N.eqb_spec c1 SP) as [->|]; [|done].
  intros (c & -> & Hc)%one_digit_reads; [|done]. by exists c.
Qed.

Lemma re_d_reads alt s v r :
  alt ∈ re_d → alt s = Some (v, r) →
  ∃ ds, s = ds ++ r ∧ 1 ≤ length ds ≤ 2
        ∧ (decimal_reading ds = Some v
           ∨ ∃ c, ds = [SP; c] ∧ decimal_reading [c] = Some v).
Proof.
  unfold re_d. intros Hin Halt.
  repeat (apply elem_of_cons in Hin as [->|Hin]);
    [..|by apply elem_of_nil in Hin];
    first [ apply two_digits_reads in Halt as (c1 & c2 & -> & Hv);
            [exists [c1; c2]; simpl; split; [done|]; split; [lia|by left] |..]
          | apply one_digit_reads in Halt as (c1 & -> & Hv);
            [exists [c1]; simpl; split; [done|]; split; [lia|by left] |..]
          | apply blank_digit_reads in Halt as (c1 & -> & Hv);
            [exists [SP; c1]; simpl; split; [done|]; split; [lia|right; by exists c1] |..] ];
    try done;
    intros c w Hc; by apply ascii_range_decimal in Hc.
Qed.

Lemma re_m_reads alt s v r :
  alt ∈ re_m → alt s = Some (v, r) →
  ∃ ms, s = ms ++ r ∧ 1 ≤ length ms ≤ 2 ∧ decimal_reading ms = Some v.
Proof.
  unfold re_m. intros Hin Halt.
  repeat (apply elem_of_cons in Hin as [->|Hin]);
    [..|by apply elem_of_nil in Hin];
    first [ apply two_digits_reads in Halt as (c1 & c2 & -> & Hv);
            [exists [c1; c2]; simpl; split; [done|]; split; [lia|done] |..]
          | apply one_digit_reads in Halt as (c1 & -> & Hv);
            [exists [c1]; simpl; split; [done|]; split; [lia|done] |..] ];
    intros c w Hc; by apply ascii_range_decimal in Hc.
Qed.

(** What [strptime] accepts it has read digit by digit: the token is the
    day, a full stop, the month, a full stop and the year, in decimal
    digits, and they name a day of the calendar. *)
Lemma strptime_reads token d :
  strptime token = Ok d →
  ∃ ds ms ys,
    token = ds ++ [46%N] ++ ms ++ [46%N] ++ ys
    ∧ 1 ≤ length ds ≤ 2 ∧ 1 ≤ length ms ≤ 2 ∧ length ys = 4
    ∧ (decimal_reading ds = Some (day d)
       ∨ ∃ c, ds = [SP; c] ∧ decimal_reading [c] = Some (day d))
    ∧ decimal_reading ms = Some (month d)
    ∧ decimal_reading ys = Some (year d).
Proof.
  intros [Hmatch Hvalid]%strptime_Ok.
  unfold format_match in Hmatch.
  apply first_match_Some in Hmatch as (alt & v & s1 & Hin & Halt & Hk).
  destruct (re_d_reads _ _ _ _ Hin Halt) as (ds & -> & Hds & Hday).
  destruct (literal 46 s1) as [s2|] eqn:Hdot1; [|done].
  cbn [mbind option_bind] in Hk.
  apply literal_Some in Hdot1 as ->.
  apply first_match_Some in Hk as (alt' & v' & s3 & Hin' & Halt' & Hk').
  destruct (re_m_reads _ _ _ _ Hin' Halt') as (ms & -> & Hms & Hmonth).
  destruct (literal 46 s3) as [s4|] eqn:Hdot2; [|done].
  cbn [mbind option_bind] in Hk'.
  apply literal_Some in Hdot2 as ->.
  destruct (re_Y s4) as [[y rest]|] eqn:HY; [|done].
  cbn [mbind option_bind] in Hk'.
  injection Hk' as <- ->. unfold re_Y in HY.
  destruct s4 as [|c1 [|c2 [|c3 [|c4 s5]]]]; [done..|].
  destruct (decimal_value c1) as [v1|] eqn:E1; [|done].
  destruct (decimal_value c2) as [v2|] eqn:E2; [|done].
  destruct (decimal_value c3) as [v3|] eqn:E3; [|done].
  destruct (decimal_value c4) as [v4|] eqn:E4; [|done].
  simpl in HY. injection HY as <- ->.
  exists ds, ms, [c1; c2; c3; c4]. split; [done|]. split; [done|].
  split; [done|]. split; [done|]. split; [done|]. split; [done|].
  unfold decimal_reading. simpl. rewrite E1. simpl. rewrite E2. simpl.
  rewrite E3. simpl. rewrite E4. simpl. f_equal. lia.
Qed.

(** The full stop is not a decimal digit. *)
Hypothesis stop_no_digit : decimal_value 46 = None.

Lemma re_d_numeral {B} d ds (k : N → list N → option B) rest :
  (1 ≤ d ≤ 31)%N → ds ∈ numerals d →
  is_Some (k d (46 :: rest)%N) →
  first_match re_d k (ds ++ 46 :: rest)%N = k d (46 :: rest)%N.
Proof.
  intros Hd Hds Hk. unfold numerals in Hds.
  apply elem_of_cons in Hds as [->|Hds].
  - destruct (two_digit_split d) as (a & b & Ha & Hb & ->); [lia|].
    rewrite pad2_digits by done. by apply re_d_digits.
  - destruct (N.ltb_spec d 10) as [Hlt|Hlt]; [|by apply elem_of_nil in Hds].
    apply list_elem_of_singleton in Hds as ->. destruct Hk as [r Hk].
    destruct Hd as [Hd _]. revert d Hlt Hd Hk.
    apply (digit_cases (λ d, (1 ≤ d)%N → k d (46 :: rest)%N = Some r → _)).
    repeat constructor. all: intros Hd Hk; try lia.
    all: unfold re_d, first_match, two_digits, one_digit, blank_digit, ascii_range.
    all: cbn; rewrite ?stop_no_digit; vm_compute; vm_compute in Hk; by rewrite Hk.
Qed.

Lemma re_m_numeral {B} m ms (k : N → list N → option B) rest :
  (1 ≤ m ≤ 12)%N → ms ∈ numerals m →
  is_Some (k m (46 :: rest)%N) →
  first_match re_m k (ms ++ 46 :: rest)%N = k m (46 :: rest)%N.
Proof.
  intros Hm Hms Hk. unfold numerals in Hms.
  apply elem_of_cons in Hms as [->|Hms].
  - destruct (two_digit_split m) as (a & b & Ha & Hb & ->); [lia|].
    rewrite pad2_digits by done. by apply re_m_digits.
  - destruct (N.ltb_spec m 10) as [Hlt|Hlt]; [|by apply elem_of_nil in Hms].
    apply list_elem_of_singleton in Hms as ->. destruct Hk as [r Hk].
    destruct Hm as [Hm _]. revert m Hlt Hm Hk.
    apply (digit_cases (λ m, (1 ≤ m)%N → k m (46 :: rest)%N = Some r → _)).
    repeat constructor. all: intros Hm Hk; try lia.
    all: unfold re_m, first_match, two_digits, one_digit, ascii_range.
    all: vm_compute; vm_compute in Hk; by rewrite Hk.
Qed.

(** A day of the calendar, written with day and month in one or two
    digits and the year in four, is read as that day. *)
Lemma strptime_numerals d m y ds ms :
  valid_date {| year := y; month := m; day := d |} = true →
  ds ∈ numerals d → ms ∈ numerals m →
  strptime (ds ++ [46%N] ++ ms ++ [46%N] ++ pad4 y)
  = Ok {| year := y; month := m; day := d |}.
Proof.
  intros Hvalid Hds Hms.
  destruct (valid_date_ranges _ Hvalid) as (Hy & Hm & _ & Hd).
  cbn [year month day] in Hy, Hm, Hd.
  assert (1 ≤ d)%N as Hd1.
  { apply valid_date_ranges in Hvalid as (_ & _ & [? _] & _). done. }
  destruct (four_digit_split y) as (y1 & y2 & y3 & y4 & ? & ? & ? & ? & Hyeq); [lia|].
  assert (format_match (ds ++ [46%N] ++ ms ++ [46%N] ++ pad4 y)
          = Some ({| year := y; month := m; day := d |}, [])) as Hmatch.
  { unfold format_match. rewrite Hyeq at 1. rewrite pad4_digits by done.
    set (k_m := λ (m0 : N) (s3 : list N),
           s4 ← literal 46 s3;
           '(y0, rest) ← re_Y s4;
           Some ({| year := y0; month := m0; day := d |}, rest)).
    assert (k_m m [46; 48 + y1; 48 + y2; 48 + y3; 48 + y4]%N
            = Some ({| year := y; month := m; day := d |}, [])) as Hk_m.
    { unfold k_m, re_Y. cbn [literal N.eqb Pos.eqb mbind option_bind].
      rewrite !ascii_decimal by done. cbn [mbind option_bind]. by rewrite Hyeq. }
    set (k_d := λ (d0 : N) (s1 : list N),
           s2 ← literal 46 s1;
           first_match re_m (λ (m0 : N) (s3 : list N),
             s4 ← literal 46 s3;
             '(y0, rest) ← re_Y s4;
             Some ({| year := y0; month := m0; day := d0 |}, rest)) s2).
    assert (k_d d (46%N :: (ms ++ [46; 48 + y1; 48 + y2; 48 + y3; 48 + y4]%N))
            = Some ({| year := y; month := m; day := d |}, [])) as Hk_d.
    { unfold k_d. cbn [literal N.eqb Pos.eqb mbind option_bind].
      fold k_m. rewrite (re_m_numeral m ms); [done|lia|done|by rewrite Hk_m]. }
    change (ds ++ [46%N] ++ ms ++ [46%N] ++ [48 + y1; 48 + y2; 48 + y3; 48 + y4]%N)
      with (ds ++ 46%N :: (ms ++ [46; 48 + y1; 48 + y2; 48 + y3; 48 + y4]%N)).
    fold k_d. rewrite (re_d_numeral d ds k_d); [done|lia|done|by rewrite Hk_d]. }
  unfold strptime. by rewrite Hmatch, Hvalid.
Qed.

End DateReading.

Section Dates.
Context {ext : Externals}.

Lemma extract_date_first_token n token others :
  str_split (get_attr n (lit "title")) = token :: others →
  extract_date (Some n)
  = match strptime token with
    | Ok date_obj => Ok (Some (strftime date_obj))
    | Raise _ => Ok None
    end.
Proof.
  intros Hsplit. unfold extract_date, try_date. rewrite Hsplit.
  cbn [index0 mbind res_bind].
  destruct (strptime token) as [date_obj|e] eqn:E; [done|].
  by apply strptime_Raise in E as ->.
Qed.

Lemma extract_date_no_token n :
  str_split (get_attr n (lit "title")) = [] → extract_date (Some n) = Ok None.
Proof. intros Hsplit. unfold extract_date, try_date. by rewrite Hsplit. Qed.

End Dates.

Lemma sample_decimal v :
  (v < 10)%N → decimal_value (Externals := sample_externals) (48 + v) = Some v.
Proof. revert v. apply digit_cases. by repeat constructor. Qed.



(** X9: a [.date] element gives a date only when the first token of its
    [title] is one or two digits, a full stop, one or two digits, a full
    stop and four digits, with nothing before or after, and when these
    read, as decimal numbers, as the day, the month and the year of a day
    of the calendar between the years 1 and 9999; the date is that day.
    Any other first token is a [ValueError] of [strptime], and then, as
    without any token, there is no date and no exception. *)
Theorem date_only_from_day_month_year {ext : Externals} (n : node) :
  (∀ v, (v < 10)%N → decimal_value (48 + v) = Some v) →
  ∃ date_str,
    extract_date (Some n) = Ok date_str
    ∧ (str_split (get_attr n (lit "title")) = [] → date_str = None)
    ∧ (∀ token others e,
         str_split (get_attr n (lit "title")) = token :: others →
         strptime token = Raise e →
         e = ValueError ∧ date_str = None)
    ∧ (∀ s,
         date_str = Some s →
         ∃ token others ds ms ys date_obj,
           str_split (get_attr n (lit "title")) = token :: others
           ∧ strptime token = Ok date_obj
           ∧ token = ds ++ [46%N] ++ ms ++ [46%N] ++ ys
           ∧ 1 ≤ length ds ≤ 2 ∧ 1 ≤ length ms ≤ 2 ∧ length ys = 4
           ∧ decimal_reading ds = Some (day date_obj)
           ∧ decimal_reading ms = Some (month date_obj)
           ∧ decimal_reading ys = Some (year date_obj)
           ∧ (1 ≤ year date_obj ≤ 9999)%N ∧ (1 ≤ month date_obj ≤ 12)%N
           ∧ (1 ≤ day date_obj ≤ days_in_month (year date_obj) (month date_obj))%N
           ∧ s = strftime date_obj).
Proof.
  intros Hdec.
  destruct (str_split (get_attr n (lit "title"))) as [|token others] eqn:Hsplit.
  { exists None. split; [by apply extract_date_no_token|]. by repeat split. }
  rewrite (extract_date_first_token _ _ _ Hsplit).
  destruct (strptime token) as [date_obj|e] eqn:E.
  - exists (Some (strftime date_obj)). split; [done|]. split; [done|].
    split; [intros ??? [= <- <-] He; by rewrite E in He|]. intros s [= <-].
    destruct (strptime_reads Hdec _ _ E)
      as (ds & ms & ys & Htoken & Hds & Hms & Hys & Hday & Hmonth & Hyear).
    pose proof (strptime_Ok _ _ E) as [_ Hvalid].
    destruct (valid_date_ranges _ Hvalid) as (? & ? & ? & _).
    exists token, others, ds, ms, ys, date_obj.
    split; [done|]. split; [done|].
    repeat (split; [done|]). split; [|done].
    destruct Hday as [Hday|(c & -> & _)]; [done|]. exfalso.
    assert (Forall (λ c, isspace c = false) token) as Htok.
    { pose proof (split_go_nonspace [] (get_attr n (lit "title")) (Forall_nil_2 _))
        as Hall.
      fold (str_split (get_attr n (lit "title"))) in Hall. rewrite Hsplit in Hall.
      by apply Forall_cons in Hall as [? _]. }
    rewrite Htoken in Htok. by apply Forall_cons in Htok as [? _].
  - exists None. split; [done|]. split; [done|].
    split; [|done]. intros ??? [= <- <-] He. rewrite E in He.
    injection He as <-. split; [|done]. by apply strptime_Raise in E.
Qed.

Lemma date_only_from_day_month_year_witness :
  ∃ date_str,
    extract_date (ext := sample_externals) (date_element "7.03.2021 10:11:12")
    = Ok date_str.
Proof.
  destruct (date_only_from_day_month_year (ext := sample_externals)
              (Tag (lit "div") {[ lit "title" := lit "7.03.2021 10:11:12" ]} [])
              sample_decimal) as (date_str & Hdate & _).
  by exists date_str.
Defined.

(** X10: when the decimal digits include the ASCII ones and the full stop
    is none, a [.date] element whose [title] starts with a day of the
    calendar written day, full stop, month, full stop, year, with day and
    month in one or two digits and the year in four, alone or followed by
    whitespace and anything (the time of day, the zone), gives that day
    written year, month, day with month and day in two digits; the year is
    written without leading zeros, so with the same four digits from the
    year 1000 on. *)
Theorem extract_date_day_month_year {ext : Externals}
    (name : str) (attrs : gmap (list N) (list N)) (ch : list node)
    (d m y : N) (ds ms rest : str) :
  (∀ v, (v < 10)%N → decimal_value (48 + v) = Some v) →
  decimal_value 46 = None →
  valid_date {| year := y; month := m; day := d |} = true →
  ds ∈ numerals d → ms ∈ numerals m →
  (if rest is x :: _ then isspace x else true) = true →
  attrs !! lit "title" = Some (ds ++ [46%N] ++ ms ++ [46%N] ++ pad4 y ++ rest) →
  extract_date (Some (Tag name attrs ch))
  = Ok (Some (decimal_N y ++ lit "-" ++ pad2 m ++ lit "-" ++ pad2 d))
  ∧ ((1000 ≤ y)%N →
     extract_date (Some (Tag name attrs ch))
     = Ok (Some (pad4 y ++ lit "-" ++ pad2 m ++ lit "-" ++ pad2 d))).
Proof.
  intros Hdec Hstop Hvalid Hds Hms Hrest Htitle.
  pose proof (strptime_numerals Hdec Hstop d m y ds ms Hvalid Hds Hms) as Hparse.
  set (token := ds ++ [46%N] ++ ms ++ [46%N] ++ pad4 y) in *.
  assert (get_attr (Tag name attrs ch) (lit "title") = token ++ rest) as Hget.
  { unfold get_attr. rewrite Htitle. unfold token. by rewrite <- !app_assoc. }
  assert (head (str_split (token ++ rest)) = Some token) as Hhead.
  { apply (split_go_first [] token rest).
    - unfold token. repeat (apply Forall_app; split);
        [by eapply numerals_nonspace | by repeat constructor
        | by eapply numerals_nonspace | by repeat constructor
        | apply pad4_nonspace].
    - unfold token. by destruct ds.
    - destruct rest as [|x r]; [by left|]. right. by exists x, r. }
  assert (extract_date (Some (Tag name attrs ch))
          = Ok (Some (decimal_N y ++ lit "-" ++ pad2 m ++ lit "-" ++ pad2 d))) as Hdate.
  { destruct (str_split (token ++ rest)) as [|first others] eqn:Hsplit; [done|].
    injection Hhead as ->. rewrite <- Hget in Hsplit.
    by rewrite (extract_date_first_token _ _ _ Hsplit), Hparse. }
  split; [done|]. intros Hy. rewrite Hdate.
  destruct (valid_date_ranges _ Hvalid) as ([_ Hhi] & _). simpl in Hhi.
  by rewrite decimal_N_four.
Qed.

Lemma extract_date_day_month_year_witness :
  extract_date (ext := sample_externals)
    (date_element "7.03.2021 10:11:12 UTC+03:00")
  = Ok (Some (lit "2021-03-07")).
Proof.
  refine (proj1 (extract_date_day_month_year (ext := sample_externals)
           (lit "div") {[ lit "title" := lit "7.03.2021 10:11:12 UTC+03:00" ]} []
           7 3 2021 (lit "7") (lit "03") (lit " 10:11:12 UTC+03:00") sample_decimal
           eq_refl eq_refl _ _ eq_refl eq_refl)).
  - apply list_elem_of_further, list_elem_of_here.
  - apply list_elem_of_here.
Defined.

(** ** The files of a run *)

Section Files.
Context {ext : Externals}.

Lemma filename_of_has_body m f : filename_of m = Some f → has_body m = true.
Proof.
  unfold filename_of, has_body. destruct (text_div m); [|done].
  by destruct (strip _).
Qed.

Lemma filename_of_stem m f :
  filename_of m = Some f →
  ∃ line, f = clean_filename line ++ lit ".md" ∧ clean_filename line ≠ [].
Proof.
  unfold filename_of, extract_title_and_date. destruct (text_div m); [|done].
  destruct (strip _); [done|].
  destruct (extract_first_meaningful_line _) as [[|lc ll]|]; [done| |done].
  destruct (extract_date_Ok (date_div m)) as [d ->]. simpl.
  destruct (clean_filename (lc :: ll)) as [|tc tl] eqn:E; [done|].
  intros [= <-]. exists (lc :: ll). by rewrite E.
Qed.

Lemma run_from_extends st messages st' :
  run_from st messages = Ok st' → written st `prefix_of` written st'.
Proof.
  revert st. induction messages as [|m rest IH]; intros st; simpl.
  - by intros [= <-].
  - destruct (step st m) as [st1|e] eqn:E; simpl; [|done].
    intros Hrun%IH. apply step_extends in E as (_ & _ & Hpre). by etrans.
Qed.

(** The names of the files a run writes, in the order of writing, are
    names of its messages in document order. *)
Lemma run_from_names st messages st' :
  run_from st messages = Ok st' →
  ∃ names,
    (written st').*1 = (written st).*1 ++ names
    ∧ names `sublist_of` omap filename_of messages.
Proof.
  revert st. induction messages as [|m rest IH]; intros st; simpl.
  - intros [= <-]. exists []. by rewrite app_nil_r.
  - destruct (step st m) as [st1|e] eqn:E; simpl; [|done].
    intros (names & Hnames & Hsub)%IH.
    destruct (filename_of m) as [f|] eqn:Hf.
    + destruct (decide (f ∈ used_filenames st)) as [Hin|Hin].
      * rewrite (step_duplicate _ _ _ Hf Hin) in E. injection E as <-.
        exists names. split; [done|]. by apply sublist_cons.
      * destruct (step_fresh _ _ _ Hf Hin) as (content & _ & Hfresh).
        rewrite Hfresh in E. destruct (accepts_write _ _ _); [|done].
        injection E as <-. exists (f :: names). split; [|by apply sublist_skip].
        rewrite Hnames. simpl. rewrite fmap_app. simpl.
        by rewrite <- app_assoc.
    + rewrite (step_skip _ _ Hf) in E. injection E as <-. by exists names.
Qed.

Lemma omap_filename_length messages :
  length (omap filename_of messages) ≤ length (List.filter has_body messages).
Proof.
  induction messages as [|m rest IH]; [done|]. cbn [omap list_omap List.filter].
  destruct (filename_of m) as [f|] eqn:E.
  - rewrite (filename_of_has_body _ _ E). cbn [length]. lia.
  - destruct (has_body m); cbn [length]; lia.
Qed.

(** X11: every file of a run, also of one a refused write ends later, is
    named by a clean stem and [.md]: the stem is not empty, has at most
    100 characters and no whitespace at either end, and the whole name
    holds none of the characters of line 13, so no path separator and no
    line break. *)
Theorem written_filenames_safe (messages : list message) (st : state) :
  run messages = Ok st →
  ∀ f, f ∈ (written st).*1 →
    ∃ stem,
      f = stem ++ lit ".md"
      ∧ stem ≠ [] ∧ length stem ≤ 100
      ∧ (∀ c, head stem = Some c → isspace c = false)
      ∧ (∀ c, last stem = Some c → isspace c = false)
      ∧ (∀ c, c ∈ special_chars → c ∉ f).
Proof.
  intros Hrun.
  pose proof (run_from_consistent _ _ _ consistent_initial Hrun) as (Hused & _).
  intros f Hf.
  assert (f ∈ used_filenames st) as Hin
    by (rewrite Hused; by apply elem_of_list_to_set).
  apply (run_from_used _ _ _ f Hrun) in Hin as [Hin|(m & _ & Hm)];
    [by apply not_elem_of_empty in Hin|].
  apply filename_of_stem in Hm as (line & -> & Hne).
  destruct (clean_filename_tidy line) as (Hsp & _ & Hh & Hl).
  exists (clean_filename line). split; [done|]. split; [done|].
  split; [apply clean_filename_length|]. split; [done|]. split; [done|].
  intros c Hc [Hin|Hin]%elem_of_app.
  - apply in_class_spec in Hc. rewrite Forall_forall in Hsp.
    specialize (Hsp c Hin). unfold is_special in Hsp. congruence.
  - apply in_class_spec in Hc.
    assert (Forall (λ x, in_class special_chars x = false) (lit ".md")) as Hmd
      by (by repeat constructor).
    rewrite Forall_forall in Hmd. specialize (Hmd c Hin). congruence.
Qed.

(** X12: the files of a run are written in the document order of their
    messages, and the file of a filename is the file of its first message:
    the very file the loop body writes for that message in any state that
    has the initial [last_author] and has not registered the name.  So
    the file of a message does not depend on the messages before it. *)
Theorem written_documents (messages : list message) (st : state) :
  run messages = Ok st →
  (written st).*1 `sublist_of` omap filename_of messages
  ∧ ∀ before m after f,
      messages = before ++ m :: after → filename_of m = Some f →
      (∀ m', m' ∈ before → filename_of m' ≠ Some f) →
      ∃ content,
        (f, content) ∈ written st
        ∧ ∀ st0 st1,
            last_author st0 = lit "Unknown Author" →
            f ∉ used_filenames st0 →
            step st0 m = Ok st1 →
            st1 = with_file st0 f content.
Proof.
  intros Hrun. split.
  { destruct (run_from_names _ _ _ Hrun) as (names & Hnames & Hsub).
    by rewrite Hnames. }
  intros before m after f -> Hf Hnew.
  destruct (run_from_split _ _ _ _ _ Hrun) as (st1 & st2 & Hrun1 & Hstep & Hrun2).
  assert (f ∉ used_filenames st1) as Hin.
  { intros [Hin|(m' & Hm' & Hf')]%(run_from_used _ _ _ f Hrun1).
    - by apply not_elem_of_empty in Hin.
    - by apply (Hnew m'). }
  destruct (step_fresh _ _ _ Hf Hin) as (content & Hdoc & Hfresh).
  rewrite Hfresh in Hstep. destruct (accepts_write _ _ _); [|done].
  injection Hstep as <-. exists content. split.
  - apply run_from_extends in Hrun2. destruct Hrun2 as [k ->]. simpl.
    set_solver.
  - intros st0 st1' Hauthor Hin0 Hstep0.
    destruct (step_fresh _ _ _ Hf Hin0) as (content' & Hdoc' & Hfresh').
    rewrite (run_from_author _ _ _ Hrun1) in Hdoc.
    change (last_author initial) with (lit "Unknown Author") in Hdoc.
    rewrite Hauthor, Hdoc in Hdoc'. injection Hdoc' as <-. rewrite Hfresh' in Hstep0.
    destruct (accepts_write _ _ _); [|done]. by injection Hstep0 as <-.
Qed.

(** X13: the number of converted messages reported at the end of a run is
    the number of files written, which is the number of different
    filenames its messages give; it is at most the number of messages
    whose body holds text. *)
Theorem converted_count_is_distinct_filenames (messages : list message) (st : state) :
  run messages = Ok st →
  converted_count st = length (written st)
  ∧ converted_count st
    = size (list_to_set (omap filename_of messages) : gset (list N))
  ∧ converted_count st ≤ length (List.filter has_body messages)
  ∧ length (List.filter has_body messages) ≤ length messages.
Proof.
  intros Hrun.
  pose proof (run_from_consistent _ _ _ consistent_initial Hrun)
    as (Hused & Hnodup & Hcount).
  split; [done|]. split; [|split].
  - rewrite Hcount, <- (length_fmap fst), <- (size_list_to_set (C := gset (list N)))
      by done.
    f_equal. rewrite <- Hused. apply set_eq. intros f.
    rewrite (run_from_used _ _ _ f Hrun), elem_of_list_to_set, list_elem_of_omap.
    simpl. set_solver.
  - rewrite Hcount, <- (length_fmap fst).
    destruct (run_from_names _ _ _ Hrun) as (names & -> & Hsub). simpl.
    etrans; [by apply sublist_length|]. apply omap_filename_length.
  - clear. induction messages as [|m rest IH]; [done|]. simpl.
    destruct (has_body m); simpl; lia.
Qed.

End Files.

Lemma three_messages_run :
  ∃ st, run (ext := sample_externals) three_messages = Ok st
        ∧ (written st).*1 = [lit "Release notes for May.md"; lit "Minutes.md"]
        ∧ converted_count st = 2.
Proof. eexists. split; [vm_compute; reflexivity|]. split; reflexivity. Qed.

Lemma written_filenames_safe_witness :
  ∃ st, run (ext := sample_externals) three_messages = Ok st
        ∧ ∀ f, f ∈ (written st).*1 → ∃ stem, f = stem ++ lit ".md" ∧ stem ≠ [].
Proof.
  destruct three_messages_run as (st & Hrun & _). exists st. split; [done|].
  intros f Hf.
  destruct (written_filenames_safe (ext := sample_externals) three_messages st Hrun f Hf)
    as (stem & ? & ? & _).
  by exists stem.
Defined.

Lemma written_documents_witness :
  ∃ st, run (ext := sample_externals) three_messages = Ok st
        ∧ (written st).*1
          `sublist_of` omap (filename_of (ext := sample_externals)) three_messages.
Proof.
  destruct three_messages_run as (st & Hrun & _). exists st. split; [done|].
  apply (written_documents (ext := sample_externals) three_messages st Hrun).
Defined.

Lemma converted_count_witness :
  ∃ st, run (ext := sample_externals) three_messages = Ok st
        ∧ converted_count st = length (written st).
Proof.
  destruct three_messages_run as (st & Hrun & _). exists st. split; [done|].
  apply (converted_count_is_distinct_filenames (ext := sample_externals)
           three_messages st Hrun).
Defined.

(** ** When there is no title *)

Lemma Forall_isspace_filter s :
  Forall (λ c, isspace c = true) s ↔ filter (λ c, isspace c = false) s = [].
Proof.
  induction s as [|c r IH]; [done|]. rewrite Forall_cons, filter_cons, IH.
  destruct (decide (isspace c = false)) as [Hc|Hc].
  - split; [intros [? _]; congruence | done].
  - apply not_false_iff_true in Hc. naive_solver.
Qed.

Lemma sub_space_runs_blank b s :
  Forall (λ c, isspace c = true) (sub_space_runs b s)
  ↔ Forall (λ c, isspace c = true) s.
Proof. by rewrite !Forall_isspace_filter, sub_space_runs_visible. Qed.

Lemma rstrip_class_app_all p s k :
  Forall (λ c, p c = true) k → rstrip_class p (s ++ k) = rstrip_class p s.
Proof.
  intros Hk. induction s as [|c r IH]; simpl.
  - induction Hk as [|x k Hx _ IHk]; [done|]. simpl. by rewrite IHk, Hx.
  - by rewrite IH.
Qed.

Lemma punct_not_special c :
  is_punct c = true ∧ is_special c = false ↔ c ∈ lit ".,!;".
Proof.
  split.
  - intros [Hp%in_class_spec Hs]. unfold punct_chars in Hp.
    repeat (apply elem_of_cons in Hp as [->|Hp];
            [first [done | by apply (bool_decide_unpack _)]|]).
    by apply elem_of_nil in Hp.
  - intros Hc.
    repeat (apply elem_of_cons in Hc as [->|Hc]; [done|]).
    by apply elem_of_nil in Hc.
Qed.

Section NoTitle.
Context {ext : Externals}.

Lemma clean_filename_nil text : clean_filename text = [] ↔ normalized_form text = [].
Proof.
  rewrite clean_filename_eq.
  destruct (Nat.ltb_spec 100 (length (normalized_form text))) as [Hlen|Hlen]; [|done].
  split; [|intros Hn; rewrite Hn in Hlen; simpl in Hlen; lia].
  intros Hnil. exfalso.
  destruct (normalized_form_tidy text) as (_ & _ & Hh & _).
  unfold rsplit1_head in Hnil.
  destruct (normalized_form text) as [|c0 n] eqn:En; [simpl in Hlen; lia|].
  specialize (Hh c0 eq_refl).
  destruct (before_last SP (take 100 (c0 :: n))) as [p|] eqn:Hp; simpl in Hnil.
  - subst p. apply before_last_Some in Hp as (q & Hq & _). simpl in Hq.
    injection Hq as -> _. by rewrite isspace_SP in Hh.
  - done.
Qed.

(** X14: [clean_filename] returns the empty string exactly when the text
    left by the emoji removal is whitespace and characters of line 13,
    followed by nothing but full stops, commas, exclamation marks and
    semicolons ([***], [...], [?!] for instance); a message with such a
    first meaningful line gets no title, or the empty one, and the loop
    body skips it: nothing is written and the state is as before. *)
Theorem clean_filename_empty (text : str) :
  (clean_filename text = []
   ↔ ∃ pre suf,
       replace_emoji text = pre ++ suf
       ∧ Forall (λ c, isspace c = true ∨ is_special c = true) pre
       ∧ Forall (λ c, c ∈ lit ".,!;") suf)
  ∧ ∀ st m td,
      text_div m = Some td →
      extract_first_meaningful_line (convert_tag_to_md (Some td)) = Some text →
      clean_filename text = [] →
      (∃ title date_str,
         extract_title_and_date m = Ok (title, date_str)
         ∧ (title = None ∨ title = Some []))
      ∧ filename_of m = None
      ∧ step st m = Ok st.
Proof.
  split; [|intros st m td Htd Hline Hclean];
    [|assert ((∃ title date_str,
                 extract_title_and_date m = Ok (title, date_str)
                 ∧ (title = None ∨ title = Some []))
              ∧ filename_of m = None) as [Htitle Hname];
      [|split; [done|]; split; [done|]; by apply step_skip]].
  2:{ unfold filename_of, extract_title_and_date. rewrite Htd, Hline.
      destruct text as [|c l].
      - split; [exists None, None; split; [done|by left]|]. by destruct (strip _).
      - destruct (extract_date_Ok (date_div m)) as [d ->]. simpl. rewrite Hclean.
        split; [exists (Some []), d; split; [done|by right]|]. by destruct (strip _). }
  rewrite clean_filename_nil. unfold normalized_form.
  rewrite strip_nil_iff, sub_space_runs_blank.
  rewrite (sub_trailing_punct_no_newline _ (sub_special_Forall _)).
  set (e := replace_emoji text). split.
  - intros Hblank.
    destruct (rstrip_class_spec is_punct (sub_special e)) as (k & Hk & Hpunct & _).
    set (r := rstrip_class is_punct (sub_special e)) in *.
    exists (take (length r) e), (drop (length r) e).
    split; [by rewrite take_drop|].
    assert (sub_special (take (length r) e) = r
            ∧ sub_special (drop (length r) e) = k) as [Hpre Hsuf].
    { unfold sub_special in *. rewrite fmap_take, fmap_drop, Hk.
      by rewrite take_app_length, drop_app_length. }
    split.
    + rewrite <- Hpre in Hblank. unfold sub_special in Hblank.
      apply Forall_fmap in Hblank. eapply Forall_impl; [exact Hblank|].
      intros c. simpl. destruct (is_special c); auto.
    + rewrite <- Hsuf in Hpunct. unfold sub_special in Hpunct.
      apply Forall_fmap in Hpunct. eapply Forall_impl; [exact Hpunct|].
      intros c. simpl. intros Hc. apply punct_not_special.
      destruct (is_special c); [done|]. by split.
  - intros (pre & suf & -> & Hpre & Hsuf).
    assert (sub_special (pre ++ suf) = sub_special pre ++ suf) as ->.
    { unfold sub_special. rewrite fmap_app. f_equal.
      rewrite <- (list_fmap_id suf) at 2. apply list_fmap_ext.
      intros i c Hc. simpl.
      apply (proj1 (Forall_lookup _ _) Hsuf i c) in Hc.
      by apply punct_not_special in Hc as [_ ->]. }
    rewrite rstrip_class_app_all.
    2:{ eapply Forall_impl; [exact Hsuf|].
        by intros c [? _]%punct_not_special. }
    destruct (rstrip_class_spec is_punct (sub_special pre)) as (k & Hk & _).
    assert (Forall (λ c, isspace c = true) (sub_special pre)) as Hall.
    { unfold sub_special. apply Forall_fmap. eapply Forall_impl; [exact Hpre|].
      intros c. simpl. destruct (is_special c); [done|]. by intros [?|?]. }
    rewrite Hk in Hall. by apply Forall_app in Hall as [? _].
Qed.

(** X15: [extract_title_and_date] never raises.  It returns no title
    exactly when the message has no [.text] element or the conversion of
    that element is whitespace only; a title is the clean form of the first
    meaningful line of the conversion; and without a title no date is
    returned either. *)
Theorem title_needs_visible_text (m : message) :
  ∃ title date_str,
    extract_title_and_date m = Ok (title, date_str)
    ∧ (title = None
       ↔ match text_div m with
         | None => True
         | Some td =>
             Forall (λ c, isspace c = true) (convert_tag_to_md (Some td))
         end)
    ∧ (title = None → date_str = None)
    ∧ (∀ t, title = Some t →
         ∃ td line,
           text_div m = Some td
           ∧ extract_first_meaningful_line (convert_tag_to_md (Some td)) = Some line
           ∧ t = clean_filename line).
Proof.
  unfold extract_title_and_date. destruct (text_div m) as [td|].
  2:{ exists None, None. by repeat split. }
  pose proof (nonblank_lines_nil (convert_tag_to_md (Some td))) as Hblank.
  destruct (extract_first_meaningful_line (convert_tag_to_md (Some td)))
    as [line|] eqn:Hline.
  - assert (line ≠ [] ∧ nonblank_lines (convert_tag_to_md (Some td)) ≠ [])
      as [Hne Hlines].
    { unfold extract_first_meaningful_line in Hline.
      fold (nonblank_lines (convert_tag_to_md (Some td))) in Hline.
      destruct (List.find _ _) as [found|] eqn:Hfind.
      - injection Hline as ->.
        apply find_first in Hfind as (before & after & Heq & _).
        split; [|by rewrite Heq; destruct before].
        apply (nonblank_lines_elem (convert_tag_to_md (Some td))).
        rewrite Heq. set_solver.
      - destruct (nonblank_lines _) as [|first rest] eqn:Heq; [done|].
        injection Hline as ->. split; [|done].
        apply (nonblank_lines_elem (convert_tag_to_md (Some td))).
        rewrite Heq. set_solver. }
    destruct line as [|lc ll]; [done|].
    destruct (extract_date_Ok (date_div m)) as [d ->]. simpl.
    exists (Some (clean_filename (lc :: ll))), d. split; [done|].
    split; [|split; [done|]].
    + split; [done|]. intros Hall. by apply Hblank in Hall.
    + intros t [= <-]. by exists td, (lc :: ll).
  - exists None, None. split; [done|]. split; [|by split].
    split; [|done]. intros _. apply Hblank.
    unfold extract_first_meaningful_line in Hline.
    fold (nonblank_lines (convert_tag_to_md (Some td))) in Hline.
    destruct (List.find _ _); [done|]. by destruct (nonblank_lines _).
Qed.

End NoTitle.

(** ** The content of a file *)

Lemma join_cons sep x l :
  join sep (x :: l) = x ++ concat ((λ y, sep ++ y) <$> l).
Proof.
  revert x. induction l as [|y l IH]; intros x.
  - simpl. by rewrite app_nil_r.
  - change (join sep (x :: y :: l)) with (x ++ sep ++ join sep (y :: l)).
    rewrite IH. simpl. by rewrite <- !app_assoc.
Qed.

Lemma concat_lines_shift (sep : list N) (ls : list (list N)) (tail : list N) :
  concat ((λ y, sep ++ y) <$> ls) ++ sep ++ tail
  = sep ++ concat ((λ y, y ++ sep) <$> ls) ++ tail.
Proof.
  induction ls as [|y ls IH]; simpl; [done|].
  rewrite <- !app_assoc. f_equal. f_equal. apply IH.
Qed.

(** X16: the content of a file is the line [---], the line [date: ...] when
    there is a date, the line [author: "..."] in every case, the line
    [tags:] and one line [  - tag] per tag when there are tags, the line
    [---], an empty line and the Markdown body, which ends the file
    without a newline of its own. *)
Theorem final_content_layout (date_str : option str) (author : str)
    (tags : list str) (md_content : str) :
  final_content date_str author tags md_content
  = lit "---" ++ [LF]
    ++ (match date_str with
        | Some ((_ :: _) as d) => lit "date: " ++ d ++ [LF]
        | _ => []
        end)
    ++ (lit "author: " ++ [DQUOTE] ++ author ++ [DQUOTE] ++ [LF])
    ++ (if tags is [] then []
        else lit "tags:" ++ [LF]
             ++ concat ((λ tag, (lit "  - " ++ tag) ++ [LF]) <$> tags))
    ++ lit "---" ++ [LF; LF] ++ md_content.
Proof.
  unfold final_content.
  set (date_lines := match date_str with
                     | Some ((_ :: _) as d) => [lit "date: " ++ d]
                     | _ => []
                     end).
  set (tag_lines := if tags is [] then []
                    else lit "tags:" :: ((λ tag, lit "  - " ++ tag) <$> tags)).
  set (author_line := lit "author: " ++ [DQUOTE] ++ author ++ [DQUOTE]).
  assert (concat ((λ y, [LF] ++ y) <$> [lit "---" ++ [LF]; md_content])
          = [LF] ++ lit "---" ++ [LF; LF] ++ md_content) as Hend
    by (cbn [fmap list_fmap concat]; by rewrite app_nil_r, <- !app_assoc).
  replace ([lit "---"] ++ date_lines ++ [author_line] ++ tag_lines
             ++ [lit "---" ++ [LF]; md_content])
    with (lit "---" :: (date_lines ++ [author_line] ++ tag_lines)
                       ++ [lit "---" ++ [LF]; md_content])
    by (by rewrite <- !app_assoc).
  rewrite join_cons, fmap_app, concat_app, Hend, concat_lines_shift.
  rewrite !fmap_app, !concat_app.
  assert (concat ((λ y, y ++ [LF]) <$> date_lines)
          = match date_str with
            | Some ((_ :: _) as d) => lit "date: " ++ d ++ [LF]
            | _ => []
            end) as ->.
  { unfold date_lines.
    destruct date_str as [[|dc dl]|]; cbn [fmap list_fmap concat]; [done| |done].
    by rewrite app_nil_r, <- app_assoc. }
  assert (concat ((λ y, y ++ [LF]) <$> tag_lines)
          = if tags is [] then []
            else lit "tags:" ++ [LF]
                 ++ concat ((λ tag, (lit "  - " ++ tag) ++ [LF]) <$> tags)) as ->.
  { unfold tag_lines. destruct tags as [|tag tags']; [done|].
    cbn [fmap list_fmap concat]. by rewrite <- list_fmap_compose, <- app_assoc. }
  assert (concat ((λ y, y ++ [LF]) <$> [author_line])
          = lit "author: " ++ [DQUOTE] ++ author ++ [DQUOTE] ++ [LF]) as ->.
  { unfold author_line. cbn [fmap list_fmap concat].
    by rewrite app_nil_r, <- !app_assoc. }
  by rewrite <- !app_assoc.
Qed.
